(** * json-crud-server: the storage and lifecycle model of [server.ts]

    A shallow embedding of the request handlers, the write-through helpers
    and the retention sweeper of [src/server.ts], and the properties of the
    two stores ([dataStore] in memory, one file per item under [DATA_DIR])
    that the specification states about them.

    Conventions of the embedding.
    - A JavaScript object that holds JSON data is a [gmap string json]; the
      order in which keys are serialised is not represented.
    - JSON numbers are integers ([Z]); no handler inspects a number beyond
      the zero test of truthiness.
    - [dataStore] is a plain object: a property read on it sees its own
      entries and then what it inherits from its prototype, which is
      [Object.prototype]. Deno removes the accessor [__proto__] from
      [Object.prototype] when it starts, unless it is run with
      [--unstable-unsafe-proto]; both cases are represented. With the
      accessor, an assignment to [__proto__] replaces the prototype.
      [m !! id] on [dataStore] is the lookup among its own entries.
    - [crypto.randomUUID()] yields a string that is no member name of
      [Object.prototype].
    - The text of a file is represented by the value [JSON.parse] yields on
      it, or by the fact that [JSON.parse] rejects it; [JSON.stringify]
      followed by [JSON.parse] is the identity on the values handled here.
    - The directory [DATA_DIR] is a map from entry names to files; it exists
      (created by [ensureDataDir] at start-up) and holds regular files.
    - The environment of one handler run (clock, UUID generator, failures
      of [Deno.writeTextFile] and [Deno.remove]) is an explicit argument.
    - The CORS and request-logging middlewares are not represented. *)

From Stdlib Require Import ZArith Lia Ascii String.
From stdpp Require Import gmap strings list fin_maps pretty.

#[local] Set Warnings "-register-all".
#[local] Open Scope Z_scope.

(** ** JSON values and the JavaScript operations the handlers apply to them *)

Module Js.

Inductive json : Type :=
| JNull
| JBool (b : bool)
| JNum (n : Z)
| JStr (s : string)
| JArr (l : list json)
| JObj (m : gmap string json).

(** ToBoolean on a JSON value: [null], [false], [0] and the empty string
    are falsy, every array and object is truthy. *)
Definition truthy (v : json) : bool :=
  match v with
  | JNull => false
  | JBool b => b
  | JNum n => negb (n =? 0)
  | JStr s => negb (String.eqb s "")
  | JArr _ => true
  | JObj _ => true
  end.

(** [o[k]] read as a condition: [undefined] is falsy. *)
Definition truthy_prop (o : option json) : bool :=
  match o with
  | Some v => truthy v
  | None => false
  end.

(** The characters of a string as one-character strings. *)
Fixpoint chars (s : string) : list string :=
  match s with
  | EmptyString => []
  | String c s' => String c EmptyString :: chars s'
  end.

(** The own enumerable properties a spread [{...v}] copies: the members of
    an object, the indexed elements of an array, the indexed characters of
    a string, nothing for [null], a boolean or a number. *)
Definition indexed (l : list json) : gmap string json :=
  list_to_map (imap (λ i v, (pretty i, v)) l).

Definition own_props (v : json) : gmap string json :=
  match v with
  | JObj m => m
  | JArr l => indexed l
  | JStr s => indexed (JStr <$> chars s)
  | _ => ∅
  end.

(** The same for the result of a property read, which may be [undefined]. *)
Definition spread (o : option json) : gmap string json :=
  match o with
  | Some v => own_props v
  | None => ∅
  end.

(** [{ ...a, ...b }]: the properties of [b] override those of [a]. *)
Definition spread2 (a b : option json) : json :=
  JObj (spread b ∪ spread a).

(** [{ ...data, createdAt: stamp }]. *)
Definition with_createdAt (data : option json) (stamp : string) : json :=
  JObj (<["createdAt" := JStr stamp]> (spread data)).

(** *** [String.prototype.endsWith] and [String.prototype.slice(0, -k)] *)

Definition endsWith (s suffix : string) : bool :=
  let n := String.length s in
  let k := String.length suffix in
  bool_decide (k ≤ n)%nat && String.eqb (String.substring (n - k) k s) suffix.

Definition slice_off (k : nat) (s : string) : string :=
  String.substring 0 (String.length s - k) s.

(** *** [Date.prototype.toISOString] on a time value in milliseconds *)

Definition msPerDay : Z := 86400000.

(** Year, month and day of the month of a day number counted from
    1970-01-01, in the proleptic Gregorian calendar. *)
Definition civil_from_days (z : Z) : Z * Z * Z :=
  let z := z + 719468 in
  let era := z / 146097 in
  let doe := z - era * 146097 in
  let yoe := (doe - doe / 1460 + doe / 36524 - doe / 146096) / 365 in
  let y := yoe + era * 400 in
  let doy := doe - (365 * yoe + yoe / 4 - yoe / 100) in
  let mp := (5 * doy + 2) / 153 in
  let d := doy - (153 * mp + 2) / 5 + 1 in
  let m := if mp <? 10 then mp + 3 else mp - 9 in
  (if m <=? 2 then y + 1 else y, m, d).

Definition digit (n : Z) : Ascii.ascii :=
  Ascii.ascii_of_nat (48 + Z.to_nat (n mod 10)).

(** The [k] low decimal digits of [n], zero padded. *)
Fixpoint digits (k : nat) (n : Z) : string :=
  match k with
  | O => ""
  | S k' => digits k' (n / 10) +:+ String (digit n) ""
  end.

Definition year_string (y : Z) : string :=
  if (0 <=? y) && (y <=? 9999) then digits 4 y
  else if y <? 0 then "-" +:+ digits 6 (- y)
  else "+" +:+ digits 6 y.

Definition toISOString (t : Z) : string :=
  let '(y, m, d) := civil_from_days (t / msPerDay) in
  let r := t mod msPerDay in
  year_string y +:+ "-" +:+ digits 2 m +:+ "-" +:+ digits 2 d +:+ "T" +:+
  digits 2 (r / 3600000) +:+ ":" +:+ digits 2 (r / 60000 mod 60) +:+ ":" +:+
  digits 2 (r / 1000 mod 60) +:+ "." +:+ digits 3 (r mod 1000) +:+ "Z".

End Js.
Export Js.

(** ** Plain objects: own entries, the prototype, reads and assignments *)

Module Obj.

(** What a property read yields. *)
Inductive jsval : Type :=
| Undefined
| Value (v : json)
| Builtin                   (* a function inherited from a built-in prototype *)
| ObjectPrototypeObject.    (* [Object.prototype] itself *)

(** ToBoolean: functions and objects are truthy. *)
Definition to_boolean (x : jsval) : bool :=
  match x with
  | Undefined => false
  | Value v => truthy v
  | Builtin => true
  | ObjectPrototypeObject => true
  end.

(** What [JSON.stringify] and a spread see of it: a function has no JSON
    text and no enumerable property, [Object.prototype] is an object
    without enumerable properties. *)
Definition as_json (x : jsval) : option json :=
  match x with
  | Undefined => None
  | Value v => Some v
  | Builtin => None
  | ObjectPrototypeObject => Some (JObj ∅)
  end.

Definition Object_prototype_functions : list string :=
  ["constructor"; "__defineGetter__"; "__defineSetter__"; "hasOwnProperty";
   "__lookupGetter__"; "__lookupSetter__"; "isPrototypeOf";
   "propertyIsEnumerable"; "toString"; "valueOf"; "toLocaleString"]%string.

Definition Array_prototype_functions : list string :=
  ["constructor"; "at"; "concat"; "copyWithin"; "fill"; "find"; "findIndex";
   "findLast"; "findLastIndex"; "lastIndexOf"; "pop"; "push"; "reverse";
   "shift"; "unshift"; "slice"; "sort"; "splice"; "includes"; "indexOf";
   "join"; "keys"; "entries"; "values"; "forEach"; "filter"; "flat";
   "flatMap"; "map"; "every"; "some"; "reduce"; "reduceRight"; "toReversed";
   "toSorted"; "toSpliced"; "with"; "toLocaleString"; "toString"]%string.

Definition member (k : string) (names : list string) : bool :=
  existsb (String.eqb k) names.

(** Whether [k] names a member of [Object.prototype]: one of its
    functions or the accessor [__proto__]. *)
Definition is_member_name (k : string) : bool :=
  String.eqb k "__proto__" || member k Object_prototype_functions.

(** The prototype of [dataStore]: [Object.prototype] at first.
    [unsafe_proto] tells whether [Object.prototype] has the accessor
    [__proto__]: Deno deletes it at start-up unless it is run with
    [--unstable-unsafe-proto]. With the accessor, an assignment to
    [__proto__] can put [null], an object or an array in the place of
    [Object.prototype] (these come from [JSON.parse] and have
    [Object.prototype] or [Array.prototype] above them). *)
Inductive prototype : Type :=
| ObjectPrototype (unsafe_proto : bool)
| NullPrototype
| ObjectValue (m : gmap string json)
| ArrayValue (l : list json).

(** A read that reaches [Object.prototype]; the getter of [__proto__],
    where there is one, answers the prototype of the object the read
    started from. *)
Definition from_Object_prototype
    (unsafe_proto : bool) (receiver_proto : jsval) (k : string) : jsval :=
  if String.eqb k "__proto__" then
    if unsafe_proto then receiver_proto else Undefined
  else if member k Object_prototype_functions then Builtin
  else Undefined.

(** A read of [k] that finds no own entry and goes up the chain. *)
Definition inherited (p : prototype) (k : string) : jsval :=
  match p with
  | ObjectPrototype b => from_Object_prototype b ObjectPrototypeObject k
  | NullPrototype => Undefined
  | ObjectValue m =>
      match m !! k with
      | Some v => Value v
      | None => from_Object_prototype true (Value (JObj m)) k
      end
  | ArrayValue l =>
      match indexed l !! k with
      | Some v => Value v
      | None =>
          if String.eqb k "length" then Value (JNum (Z.of_nat (List.length l)))
          else if member k Array_prototype_functions then Builtin
          else from_Object_prototype true (Value (JArr l)) k
      end
  end.

Record store : Type := MkStore {
  own : gmap string json;
  proto : prototype
}.

Coercion own : store >-> gmap.

(** Lookup, insertion and deletion among the own entries. *)
#[global] Instance store_lookup : Lookup string json store :=
  λ k s, own s !! k.
#[global] Instance store_insert : Insert string json store :=
  λ k v s, MkStore (<[k := v]> (own s)) (proto s).
#[global] Instance store_delete : Delete string store :=
  λ k s, MkStore (delete k (own s)) (proto s).
(** [{}], as the [Dockerfile] runs the server: no accessor [__proto__]. *)
#[global] Instance store_empty : Empty store :=
  MkStore ∅ (ObjectPrototype false).
#[global] Instance store_subseteq : SubsetEq store :=
  λ s1 s2, own s1 ⊆ own s2 ∧ proto s1 = proto s2.

(** [s[k]]. *)
Definition get (s : store) (k : string) : jsval :=
  match own s !! k with
  | Some v => Value v
  | None => inherited (proto s) k
  end.

(** Whether an assignment to [__proto__] that finds no own entry reaches
    the setter of [Object.prototype]: not when Deno has removed it, not
    under a [null] prototype, and not when the prototype has a data
    property of that name. *)
Definition setter_reachable (p : prototype) : bool :=
  match p with
  | ObjectPrototype b => b
  | NullPrototype => false
  | ObjectValue m =>
      match m !! "__proto__"%string with
      | Some _ => false
      | None => true
      end
  | ArrayValue _ => true
  end.

(** The setter of [__proto__]: an object, an array or [null] becomes the
    prototype, any other value is ignored. *)
Definition set_prototype (v : json) (s : store) : store :=
  match v with
  | JObj m => MkStore (own s) (ObjectValue m)
  | JArr l => MkStore (own s) (ArrayValue l)
  | JNull => MkStore (own s) NullPrototype
  | _ => s
  end.

(** [s[k] = v]: an own entry is overwritten; without one the assignment
    creates it, unless [k] is [__proto__] and the setter is reached. *)
Definition assign (k : string) (v : json) (s : store) : store :=
  match own s !! k with
  | Some _ => <[k := v]> s
  | None =>
      if String.eqb k "__proto__" && setter_reachable (proto s)
      then set_prototype v s
      else <[k := v]> s
  end.

(** Whether [Object.prototype] has the accessor, read off the prototype
    of [dataStore]: another prototype than [Object.prototype] can only
    have come through the setter. *)
Definition unsafe_proto_of (p : prototype) : bool :=
  match p with
  | ObjectPrototype b => b
  | _ => true
  end.

(** [{ ...s }]: a fresh plain object with the own entries of [s]. *)
Definition spread_store (s : store) : store :=
  MkStore (own s) (ObjectPrototype (unsafe_proto_of (proto s))).

End Obj.
Export Obj.

(** ** The two stores, the environment and the effects of a handler *)

Module Store.

(** Text that is JSON: the body of a request, the content of a file. *)
Inductive text : Type :=
| Stringified (v : json)   (* text that [JSON.parse] maps to [v] *)
| Malformed.               (* text that [JSON.parse] rejects *)

Definition JSON_stringify (v : json) : text := Stringified v.

(** An entry of [DATA_DIR]. [readable] is false when [Deno.readTextFile]
    fails on it with an error other than [NotFound]; [mtime] is
    [fileInfo.mtime], which Deno leaves [null] where the platform has none. *)
Record file : Type := File {
  content : text;
  readable : bool;
  mtime : option Z
}.

(** Lines written by [console.log] and [console.error]. *)
Inductive event : Type :=
| StartingCleanup (days : Z)
| DeletedOldFile (name : string)
| ErrorDeletingFile (name : string)
| ErrorDuringCleanup
| ErrorReadingFile (name : string)
| ErrorReadingData
| ErrorCreatingJson
| ErrorUpdatingJson
| ErrorDeletingJson
| ErrorOccurred.

Record world : Type := World {
  dataStore : store;
  disk : gmap string file;
  console : list event
}.

(** What a handler run draws from outside the program. *)
Record env : Type := Env {
  now : Z;                        (* [Date.now()], [new Date()] *)
  uuid : string;                  (* [crypto.randomUUID()] *)
  write_fails : bool;             (* [Deno.writeTextFile] throws *)
  remove_fails : string → bool;   (* [Deno.remove] throws, not [NotFound] *)
  uuid_format : is_member_name uuid = false
}.

(** [config.yml] after the environment overrides. *)
Record config : Type := Config {
  AUTH_HEADER : string;
  retention : option Z            (* [configData.retention?.days] *)
}.

Inductive error : Type :=
| SyntaxError
| NotFound
| IOError.

(** A computation that reads and writes the world and may throw; what was
    written before a throw stays written. *)
Definition M (A : Type) : Type := world → (error + A) * world.

Definition ret {A} (a : A) : M A := λ w, (inr a, w).

Definition throw {A} (e : error) : M A := λ w, (inl e, w).

Definition bind {A B} (m : M A) (k : A → M B) : M B :=
  λ w, match m w with
       | (inl e, w') => (inl e, w')
       | (inr a, w') => k a w'
       end.

Definition try {A} (m : M A) (handler : error → M A) : M A :=
  λ w, match m w with
       | (inl e, w') => handler e w'
       | (inr a, w') => (inr a, w')
       end.

Notation "'let*' x := m 'in' k" := (bind m (λ x, k))
  (at level 10, x name, m at level 100, k at level 200).
Notation "m >> k" := (bind m (λ _, k))
  (at level 100, k at level 200, right associativity).

Definition get_world : M world := λ w, (inr w, w).

Definition set_dataStore (f : store → store) : M unit :=
  λ w, (inr tt, World (f (dataStore w)) (disk w) (console w)).

Definition set_disk (f : gmap string file → gmap string file) : M unit :=
  λ w, (inr tt, World (dataStore w) (f (disk w)) (console w)).

Definition log (ev : event) : M unit :=
  λ w, (inr tt, World (dataStore w) (disk w) (console w ++ [ev])).

Definition JSON_parse (t : text) : M json :=
  match t with
  | Stringified v => ret v
  | Malformed => throw SyntaxError
  end.

(** *** File operations on entries of [DATA_DIR] *)

Definition readTextFile (name : string) : M text :=
  let* w := get_world in
  match disk w !! name with
  | None => throw NotFound
  | Some f => if readable f then ret (content f) else throw IOError
  end.

Definition writeTextFile (e : env) (name : string) (t : text) : M unit :=
  if write_fails e then throw IOError
  else set_disk (<[name := File t true (Some (now e))]>).

Definition remove (e : env) (name : string) : M unit :=
  if remove_fails e name then throw IOError
  else
    let* w := get_world in
    match disk w !! name with
    | None => throw NotFound
    | Some _ => set_disk (delete name)
    end.

Definition stat (name : string) : M file :=
  let* w := get_world in
  match disk w !! name with
  | None => throw NotFound
  | Some f => ret f
  end.

Definition readDir : M (list string) :=
  let* w := get_world in ret (map_to_list (disk w)).*1.

(** [for await (const x of xs) { body }]. *)
Fixpoint for_each {A} (xs : list A) (body : A → M unit) : M unit :=
  match xs with
  | [] => ret tt
  | x :: xs' => body x >> for_each xs' body
  end.

(** A loop that updates one local variable. *)
Fixpoint for_each_acc {A R} (xs : list A) (body : R → A → M R) (r : R) : M R :=
  match xs with
  | [] => ret r
  | x :: xs' => let* r' := body r x in for_each_acc xs' body r'
  end.

(** *** The write-through helpers *)

Definition item_file (id : string) : string := id +:+ ".json".

Definition writeIndividualDataFile (e : env) (id : string) (data : option json)
  : M unit :=
  writeTextFile e (item_file id)
    (JSON_stringify (with_createdAt data (toISOString (now e)))).

Definition deleteIndividualDataFile (e : env) (id : string) : M unit :=
  try (remove e (item_file id))
      (λ err, match err with
              | NotFound => ret tt
              | _ => throw err
              end).

End Store.
Export Store.

(** ** The request handlers *)

Module Handlers.

Record response : Type := Response {
  status : Z;
  payload : option json     (* the argument of [c.json]; [None] is [undefined] *)
}.

Definition c_json (v : option json) (st : Z) : response := Response st v.

Definition error_body (msg : string) : option json :=
  Some (JObj {[ "error"%string := JStr msg ]}).

Definition not_found : response := c_json (error_body "Not Found") 404.
Definition bad_request : response :=
  c_json (error_body "Bad Request - Invalid JSON") 400.
Definition internal_error : response :=
  c_json (error_body "Internal Server Error") 500.
Definition unauthorized : response := c_json (error_body "unauthorized") 401.

Section WithConfig.

Context (cfg : config).

(** [!authHeader || authHeader !== AUTH_HEADER] rejects. *)
Definition authorized (authHeader : option string) : bool :=
  match authHeader with
  | None => false
  | Some h => negb (String.eqb h "") && String.eqb h (AUTH_HEADER cfg)
  end.

Definition authMiddleware (authHeader : option string) (next : M response)
  : M response :=
  if authorized authHeader then next else ret unauthorized.

(** GET /json: the body of the loop over the directory, then the handler.
    [result] is the spread of [dataStore]: a fresh object with the own
    entries of [dataStore] and the prototype [Object.prototype].
    [Deno.readDir] does not fail on the directory of the model, so the
    handler of [dirError] around the loop has nothing to catch and is not
    represented. *)
Definition include_file (result : store) (name : string) : M store :=
  if endsWith name ".json" then
    let id := slice_off 5 name in
    if negb (to_boolean (get result id)) then
      try
        (let* fileContent := readTextFile name in
         let* v := JSON_parse fileContent in
         ret (assign id v result))
        (λ _, log (ErrorReadingFile name) >> ret result)
    else ret result
  else ret result.

Definition get_all : M response :=
  try
    (let* w := get_world in
     let result := spread_store (dataStore w) in
     let* names := readDir in
     let* result := for_each_acc names include_file result in
     ret (c_json (Some (JObj (own result))) 200))
    (λ _, log ErrorReadingData >> ret internal_error).

(** GET /json/:id *)
Definition get_one (id : string) : M response :=
  try
    (let* w := get_world in
     if to_boolean (get (dataStore w) id) then
       ret (c_json (as_json (get (dataStore w) id)) 200)
     else
       try
         (let* fileContent := readTextFile (item_file id) in
          let* jsonData := JSON_parse fileContent in
          ret (c_json (Some jsonData) 200))
         (λ fileError,
            match fileError with
            | NotFound => ret not_found
            | _ => throw fileError
            end))
    (λ _, log ErrorReadingData >> ret internal_error).

(** POST /json *)
Definition post (e : env) (origin : string) (req_body : text) : M response :=
  try
    (let* body := JSON_parse req_body in
     let id := uuid e in
     set_dataStore (assign id body) >>
     writeIndividualDataFile e id (Some body) >>
     let newJsonUrl := origin +:+ "/json/" +:+ id in
     ret (c_json
            (Some (JObj (<["id" := JStr id]>
                         (<["url" := JStr newJsonUrl]>
                          (<["data" := body]> ∅)))))
            201))
    (λ err,
       match err with
       | SyntaxError => ret bad_request
       | _ => log ErrorCreatingJson >> ret internal_error
       end).

(** PUT /json/:id *)
Definition put (e : env) (id : string) (req_body : text) : M response :=
  try
    (let* body := JSON_parse req_body in
     let* w := get_world in
     if negb (to_boolean (get (dataStore w) id)) then ret not_found
     else
       set_dataStore (assign id body) >>
       writeIndividualDataFile e id (Some body) >>
       let* w := get_world in
       ret (c_json (as_json (get (dataStore w) id)) 200))
    (λ err,
       match err with
       | SyntaxError => ret bad_request
       | _ => log ErrorUpdatingJson >> ret internal_error
       end).

(** PATCH /json/:id *)
Definition patch (e : env) (id : string) (req_body : text) : M response :=
  try
    (let* updates := JSON_parse req_body in
     let* w := get_world in
     if negb (to_boolean (get (dataStore w) id)) then ret not_found
     else
       set_dataStore
         (assign id (spread2 (as_json (get (dataStore w) id)) (Some updates))) >>
       let* w := get_world in
       writeIndividualDataFile e id (as_json (get (dataStore w) id)) >>
       let* w := get_world in
       ret (c_json (as_json (get (dataStore w) id)) 200))
    (λ err,
       match err with
       | SyntaxError => ret bad_request
       | _ => log ErrorUpdatingJson >> ret internal_error
       end).

(** DELETE /json/:id *)
Definition delete_one (e : env) (id : string) : M response :=
  try
    (let* w := get_world in
     if negb (to_boolean (get (dataStore w) id)) then ret not_found
     else
       set_dataStore (delete id) >>
       deleteIndividualDataFile e id >>
       ret (c_json
              (Some (JObj {[ "message"%string := JStr "Json deleted successfully" ]}))
              200))
    (λ _, log ErrorDeletingJson >> ret internal_error).

(** The routes. [origin] is [url.protocol + "//" + url.host] of the request. *)
Inductive request : Type :=
| GET_json
| GET_json_id (id : string)
| POST_json (authHeader : option string) (origin : string) (body : text)
| PUT_json_id (id : string) (authHeader : option string) (body : text)
| PATCH_json_id (id : string) (authHeader : option string) (body : text)
| DELETE_json_id (id : string) (authHeader : option string).

Definition route (e : env) (r : request) : M response :=
  match r with
  | GET_json => get_all
  | GET_json_id id => get_one id
  | POST_json a origin body => authMiddleware a (post e origin body)
  | PUT_json_id id a body => authMiddleware a (put e id body)
  | PATCH_json_id id a body => authMiddleware a (patch e id body)
  | DELETE_json_id id a => authMiddleware a (delete_one e id)
  end.

(** One request served; [app.onError] answers what a handler lets escape. *)
Definition serve (e : env) (r : request) (w : world) : response * world :=
  match route e r w with
  | (inr resp, w') => (resp, w')
  | (inl _, w') =>
      (internal_error, World (dataStore w') (disk w') (console w' ++ [ErrorOccurred]))
  end.

End WithConfig.

End Handlers.
Export Handlers.

(** ** The retention sweeper and its timer *)

Module Sweeper.

Section WithConfig.

Context (cfg : config).

(** [configData.retention?.days || 7]: a missing value and [0] give 7. *)
Definition retentionDays : Z :=
  match retention cfg with
  | Some d => if d =? 0 then 7 else d
  | None => 7
  end.

Definition retentionMs : Z := retentionDays * 24 * 60 * 60 * 1000.

(** The body of the loop over the directory; [now] was read before it. *)
Definition sweep_file (e : env) (now : Z) (name : string) : M unit :=
  if endsWith name ".json" then
    let* fileInfo := stat name in
    match mtime fileInfo with
    | Some m =>
        let fileAge := now - m in
        if retentionMs <? fileAge then
          try
            (remove e name >>
             log (DeletedOldFile name) >>
             let id := slice_off 5 name in
             let* w := get_world in
             if to_boolean (get (dataStore w) id)
             then set_dataStore (delete id)
             else ret tt)
            (λ _, log (ErrorDeletingFile name))
        else ret tt
    | None => ret tt
    end
  else ret tt.

Definition cleanupOldFiles (e : env) : M unit :=
  try
    (let now := now e in
     log (StartingCleanup retentionDays) >>
     let* names := readDir in
     for_each names (sweep_file e now))
    (λ _, log ErrorDuringCleanup).

(** The world after one sweep. *)
Definition sweep (e : env) (w : world) : world := (cleanupOldFiles e w).2.

End WithConfig.

(** *** [scheduleCleanup]

    The zone of the host gives the offset that [getTimezoneOffset()]
    returns at an instant (the minutes to add to local time to get UTC),
    and the offset by which a local time value is turned into an instant;
    the two differ around a change of the clocks. The local-time setters
    of [Date] take the local time value of the date, change it, and turn
    the result into an instant again. *)

Record zone : Type := Zone {
  offset_at_instant : Z → Z;      (* LocalTZA(t, true), as minutes to add *)
  offset_at_local : Z → Z         (* LocalTZA(t, false), as minutes to add *)
}.

(** A zone without changes of the clocks: the same offset at all times. *)
Definition fixed (tzo : Z) : zone := Zone (λ _, tzo) (λ _, tzo).
Coercion fixed : Z >-> zone.

Definition getTimezoneOffset (z : zone) (t : Z) : Z := offset_at_instant z t.

Definition LocalTime (z : zone) (t : Z) : Z := t - getTimezoneOffset z t * 60000.
Definition UTC (z : zone) (l : Z) : Z := l + offset_at_local z l * 60000.

(** [d.setDate(d.getDate() + 1)]: the same local time on the next day. *)
Definition setDate_next (z : zone) (t : Z) : Z :=
  UTC z (LocalTime z t + msPerDay).

(** [d.setHours(0, 0, 0, 0)]: the start of the local day. *)
Definition setHours_0 (z : zone) (t : Z) : Z :=
  UTC z (LocalTime z t / msPerDay * msPerDay).

(** The time value of [nextRun] when the clock reads [now]. *)
Definition nextRun (z : zone) (now : Z) : Z :=
  let utc := now + getTimezoneOffset z now * 60000 in
  let jakartaTime := utc + 3600000 * 7 in
  setHours_0 z (setDate_next z jakartaTime).

(** [scheduleCleanup] called when the clock reads [now]: the delay it
    hands to [setTimeout]. *)
Definition scheduleCleanup (z : zone) (now : Z) : Z :=
  let delay := nextRun z now - now in
  delay.

(** When the timer set at [now] fires: a delay that is not positive fires
    at once. *)
Definition fires_at (z : zone) (now : Z) : Z :=
  now + Z.max 0 (scheduleCleanup z now).

(** A zone with changes of the clocks: America/New_York in 2026, on
    daylight time (UTC-4) from 2026-03-08T07:00:00Z to
    2026-11-01T06:00:00Z and on standard time (UTC-5) outside. A local
    time that the clocks skip takes the offset before the change, one that
    they repeat the earlier of its two instants. *)
Definition America_New_York_2026 : zone :=
  Zone (λ t, if (1772953200000 <=? t) && (t <? 1793512800000)
             then 240 else 300)
       (λ l, if (1772938800000 <=? l) && (l <? 1793498400000)
             then 240 else 300).

(** The instants of midnight in Jakarta (UTC+7). *)
Definition jakarta_midnight (t : Z) : Prop :=
  (t + 7 * 3600000) mod msPerDay = 0.

(** The next midnight in Jakarta strictly after [now]. *)
Definition next_jakarta_midnight (now : Z) : Z :=
  ((now + 7 * 3600000) / msPerDay + 1) * msPerDay - 7 * 3600000.

(** The callback of the timer: sweep, then set the next timer. [e] is the
    environment of the sweep and [after] the clock when it has finished;
    the result is the world after the sweep and the time at which the
    next timer fires. *)
Definition on_timer (cfg : config) (z : zone) (e : env) (after : Z) (w : world)
  : world * Z :=
  (sweep cfg e w, fires_at z after).

End Sweeper.
Export Sweeper.

(** ** Observations on a world, used to state the properties *)

Module Observe.

(** What a fallback read of [id] obtains from the directory: the parsed
    content of the item file, when it is there, readable and JSON. *)
Definition from_disk (d : gmap string file) (id : string) : option json :=
  match d !! item_file id with
  | Some f =>
      if readable f then
        match content f with
        | Stringified v => Some v
        | Malformed => None
        end
      else None
  | None => None
  end.

(** The read of [id] on the spread of [dataStore], which GET /json tests:
    the own entries of [dataStore] under the prototype [Object.prototype]. *)
Definition read_on_spread (s : store) (id : string) : jsval :=
  get (spread_store s) id.

(** The entry of [id] in the answer of GET /json over the directory [d]
    and the store [s]: the file is consulted when the read of [id] on the
    spread of [s] is falsy. *)
Definition listed (d : gmap string file) (s : store) (id : string)
  : option json :=
  if to_boolean (read_on_spread s id)
  then s !! id
  else match from_disk d id with
       | Some v => Some v
       | None => s !! id
       end.

(** The [createdAt] property of the item file of [id]. *)
Definition stored_createdAt (w : world) (id : string) : option json :=
  match from_disk (disk w) id with
  | Some (JObj m) => m !! "createdAt"%string
  | _ => None
  end.

(** Whether a directory entry is older than the retention period at the
    time of the sweep. An entry without a modification time is not. *)
Definition expired (cfg : config) (e : env) (o : option file) : bool :=
  match o with
  | Some f =>
      match mtime f with
      | Some m => retentionMs cfg <? now e - m
      | None => false
      end
  | None => false
  end.

(** Whether the sweep removes the entry [name] of the directory [d]: it
    is an item file, it is expired, and [Deno.remove] does not fail. *)
Definition swept (cfg : config) (e : env) (d : gmap string file) (name : string)
  : bool :=
  endsWith name ".json" && expired cfg e (d !! name) && negb (remove_fails e name).

End Observe.
Export Observe.

(** ** Tactics and sample data for the properties *)

Ltac run_handler :=
  unfold serve, route, authMiddleware, get_one, post, put, patch, delete_one,
    writeIndividualDataFile, deleteIndividualDataFile, writeTextFile, remove,
    readTextFile, JSON_parse, JSON_stringify, set_dataStore, set_disk, log,
    get_world, try, bind, ret, throw; simpl.

Module Samples.

Definition cfg0 : config := Config "secret" None.
Definition key0 : option string := Some "secret"%string.
Definition env0 : env := Env 0 "id1" false (λ _, false) eq_refl.
Definition env1 : env := Env 1000 "id2" false (λ _, false) eq_refl.
Definition world0 : world := World ∅ ∅ [].
Definition item_t : json := JObj (<["title" := JStr "t"]> ∅).
Definition item_u : json := JObj (<["title" := JStr "u"]> ∅).
Definition item_tc : json :=
  JObj (<["title" := JStr "t"]> (<["content" := JStr "c"]> ∅)).
Definition update_x : json := JObj (<["content" := JStr "x"]> ∅).
Definition item_tx : json :=
  JObj (<["title" := JStr "t"]> (<["content" := JStr "x"]> ∅)).

Definition env2 : env := Env 2000 "id3" false (λ _, false) eq_refl.

(** A world whose only item is on disk: the file [a.json], no entry in
    [dataStore]. *)
Definition disk_only : world :=
  World ∅ (<["a.json" := File (Stringified item_t) true (Some 0)]> ∅) [].

(** A world in which the entry of [a] is [null] in memory while its file
    holds [{title: "t"}], written at time 0. *)
Definition null_in_memory : world :=
  World (<["a" := JNull]> ∅)
        (<["a.json" := File (Stringified item_t) true (Some 0)]> ∅) [].


(** Eight days after time 0. *)
Definition env_day8 : env := Env (8 * 86400000) "id9" false (λ _, false) eq_refl.

End Samples.
Import Samples.

(** ** Process start *)

Module Lifecycle.

(** The process starts with [let dataStore = {}]: nothing of a former run
    is in memory, the directory is what the former run left. *)
Definition restart (w : world) : world := World ∅ (disk w) [].

End Lifecycle.
Export Lifecycle.

Module MoreSamples.

(** An environment in which the write to disk fails, and one in which
    every removal fails. *)
Definition env_no_write : env := Env 0 "id1" true (λ _, false) eq_refl.
Definition env_no_remove : env := Env 0 "id1" false (λ _, true) eq_refl.

(** A world with the item [a] both in memory and on disk, and a file that
    is not an item file. *)
Definition stored_a : world :=
  World (<["a" := item_tc]> ∅)
        (<["a.json" := File (Stringified item_tc) true (Some 0)]>
         (<["notes.txt" := File Malformed true (Some 0)]> ∅)) [].

(** Memory holds [a]; its file is not JSON. *)
Definition memory_over_bad_file : world :=
  World (<["a" := item_t]> ∅)
        (<["a.json" := File Malformed true (Some 0)]> ∅) [].

(** Memory holds [a]; the directory has no item file. *)
Definition no_item_files : world :=
  World (<["a" := item_t]> ∅)
        (<["notes.txt" := File Malformed true (Some 0)]> ∅) [].

(** Two item files written at time 0 and one written on day 7, with their
    entries in memory. *)
Definition three_files : world :=
  World (<["a" := item_t]> (<["b" := item_u]> (<["c" := item_tc]> ∅)))
        (<["a.json" := File (Stringified item_t) true (Some 0)]>
         (<["b.json" := File (Stringified item_u) true (Some 0)]>
          (<["c.json" := File (Stringified item_tc) true (Some (7 * 86400000))]> ∅)))
        [].

(** Day 8, when the removal of [a.json] fails and every other succeeds. *)
Definition env_day8_a_fails : env :=
  Env (8 * 86400000) "id9" false (λ name, String.eqb name "a.json") eq_refl.

End MoreSamples.
Import MoreSamples.

(** * Properties *)

(** ** The JavaScript operations on concrete values *)

Example toISOString_epoch : toISOString 0 = "1970-01-01T00:00:00.000Z"%string.
Proof. reflexivity. Qed.

Example toISOString_2023 :
  toISOString 1700000000123 = "2023-11-14T22:13:20.123Z"%string.
Proof. reflexivity. Qed.

Example toISOString_leap_day :
  toISOString 1709210096789 = "2024-02-29T12:34:56.789Z"%string.
Proof. reflexivity. Qed.

Example toISOString_before_epoch :
  toISOString (-1) = "1969-12-31T23:59:59.999Z"%string.
Proof. reflexivity. Qed.

Example spread_array :
  own_props (JArr [JNum 7; JNull]) = <["0" := JNum 7]> (<["1" := JNull]> ∅).
Proof. vm_compute. reflexivity. Qed.

Example spread_string :
  own_props (JStr "ab") = <["0" := JStr "a"]> (<["1" := JStr "b"]> ∅).
Proof. vm_compute. reflexivity. Qed.

Example endsWith_item : endsWith "abc.json" ".json" = true.
Proof. reflexivity. Qed.

Example endsWith_short : endsWith "json" ".json" = false.
Proof. reflexivity. Qed.

Example slice_item : slice_off 5 "abc.json" = "abc"%string.
Proof. reflexivity. Qed.

(** ** File names and identifiers *)

Section FileNames.

Lemma substring_all (s : string) :
  String.substring 0 (String.length s) s = s.
Proof. induction s as [|c s IH]; simpl; [done | by rewrite IH]. Qed.

Lemma substring_prefix_app (s t : string) :
  String.substring 0 (String.length s) (s +:+ t) = s.
Proof.
  induction s as [|c s IH]; simpl.
  - by destruct t.
  - by rewrite IH.
Qed.

Lemma substring_suffix_app (s t : string) :
  String.substring (String.length s) (String.length t) (s +:+ t) = t.
Proof.
  induction s as [|c s IH]; simpl; [apply substring_all | exact IH].
Qed.

Lemma length_app_string (s t : string) :
  String.length (s +:+ t) = (String.length s + String.length t)%nat.
Proof. induction s as [|c s IH]; simpl; [done | by rewrite IH]. Qed.

Lemma substring_split (s : string) (n : nat) :
  (n ≤ String.length s)%nat →
  String.substring 0 n s +:+ String.substring n (String.length s - n) s = s.
Proof.
  revert n. induction s as [|c s IH]; intros n Hn; simpl in *.
  - destruct n; [done | lia].
  - destruct n as [|n]; simpl.
    + by rewrite substring_all.
    + change (String c (String.substring 0 n s +:+
                        String.substring n (String.length s - n) s) = String c s).
      f_equal. apply IH. lia.
Qed.

Lemma endsWith_item_file (id : string) : endsWith (item_file id) ".json" = true.
Proof.
  unfold endsWith, item_file. rewrite length_app_string.
  rewrite bool_decide_eq_true_2 by (simpl; lia).
  replace (String.length id + String.length ".json" - String.length ".json")%nat
    with (String.length id) by lia.
  rewrite substring_suffix_app. reflexivity.
Qed.

Lemma slice_off_item_file (id : string) : slice_off 5 (item_file id) = id.
Proof.
  unfold slice_off, item_file. rewrite length_app_string.
  replace (String.length id + String.length ".json" - 5)%nat
    with (String.length id) by (simpl; lia).
  apply substring_prefix_app.
Qed.

Lemma endsWith_inv (name : string) :
  endsWith name ".json" = true → name = item_file (slice_off 5 name).
Proof.
  unfold endsWith, slice_off, item_file. intros H.
  apply andb_true_iff in H as [Hlen Heq].
  apply bool_decide_eq_true_1 in Hlen. apply String.eqb_eq in Heq.
  simpl in Hlen.
  pose proof (substring_split name (String.length name - 5)) as Hs.
  replace (String.length name - (String.length name - 5))%nat with 5%nat
    in Hs by lia.
  simpl in Heq. rewrite Heq in Hs. symmetry. apply Hs. lia.
Qed.

Lemma item_file_inj (id id' : string) : item_file id = item_file id' → id = id'.
Proof.
  intros H. rewrite <- (slice_off_item_file id), <- (slice_off_item_file id').
  by rewrite H.
Qed.

End FileNames.

(** ** Reads and assignments on a plain object *)

Section PlainObjects.

Implicit Types (s : store) (k : string) (v : json).

Lemma store_lookup_own s k : s !! k = own s !! k.
Proof. reflexivity. Qed.

Lemma own_insert s k v : own (<[k := v]> s) = <[k := v]> (own s).
Proof. reflexivity. Qed.

Lemma own_delete s k : own (delete k s) = delete k (own s).
Proof. reflexivity. Qed.

Lemma store_lookup_insert_eq s k v : <[k := v]> s !! k = Some v.
Proof. rewrite store_lookup_own, own_insert. apply lookup_insert_eq. Qed.

Lemma store_lookup_insert_ne s k k' v : k ≠ k' → <[k := v]> s !! k' = s !! k'.
Proof.
  intros Hne. rewrite !store_lookup_own, own_insert. by apply lookup_insert_ne.
Qed.

Lemma store_lookup_delete_eq s k : delete k s !! k = None.
Proof. rewrite store_lookup_own, own_delete. apply lookup_delete_eq. Qed.

Lemma store_lookup_delete_ne s k k' : k ≠ k' → delete k s !! k' = s !! k'.
Proof.
  intros Hne. rewrite !store_lookup_own, own_delete. by apply lookup_delete_ne.
Qed.

Lemma store_eq s1 s2 : own s1 = own s2 → proto s1 = proto s2 → s1 = s2.
Proof. destruct s1, s2. simpl. by intros -> ->. Qed.

(** An own entry shadows whatever the prototype has. *)
Lemma get_own s k v : s !! k = Some v → get s k = Value v.
Proof. unfold get. rewrite store_lookup_own. by intros ->. Qed.

Lemma get_not_own s k : s !! k = None → get s k = inherited (proto s) k.
Proof. unfold get. rewrite store_lookup_own. by intros ->. Qed.

Lemma get_insert_eq s k v : get (<[k := v]> s) k = Value v.
Proof. apply get_own, store_lookup_insert_eq. Qed.

Lemma get_delete_eq s k : get (delete k s) k = inherited (proto s) k.
Proof. by rewrite get_not_own by apply store_lookup_delete_eq. Qed.

Lemma get_insert_ne s k k' v : k ≠ k' → get (<[k := v]> s) k' = get s k'.
Proof. intros Hne. unfold get. simpl. by rewrite lookup_insert_ne. Qed.

Lemma get_delete_ne s k k' : k ≠ k' → get (delete k s) k' = get s k'.
Proof. intros Hne. unfold get. simpl. by rewrite lookup_delete_ne. Qed.

Lemma get_truthy_own s k :
  truthy_prop (s !! k) = true →
  to_boolean (get s k) = true ∧ as_json (get s k) = s !! k.
Proof.
  destruct (s !! k) as [v|] eqn:Hk; simpl; [| done].
  intros Htr. by rewrite (get_own s k v Hk).
Qed.

Lemma get_falsy_own s k v :
  s !! k = Some v → truthy v = false → to_boolean (get s k) = false.
Proof. intros Hk Hv. by rewrite (get_own s k v Hk). Qed.

(** The read of an identifier that is neither an own entry nor
    inherited. *)
Lemma get_absent s k :
  s !! k = None → to_boolean (inherited (proto s) k) = false →
  to_boolean (get s k) = false.
Proof. intros Hk Hin. by rewrite get_not_own. Qed.

Lemma assign_own s k v : is_Some (s !! k) → assign k v s = <[k := v]> s.
Proof. unfold assign. rewrite store_lookup_own. by intros [x ->]. Qed.

Lemma assign_not_proto s k v :
  String.eqb k "__proto__" = false → assign k v s = <[k := v]> s.
Proof. unfold assign. intros ->. by destruct (own s !! k). Qed.

Lemma member_name_not_proto k :
  is_member_name k = false → String.eqb k "__proto__" = false.
Proof. unfold is_member_name. by intros [? _]%orb_false_iff. Qed.

(** With or without the accessor, a plain object inherits the functions
    of [Object.prototype], and nothing under a name that is no member
    name. *)
Lemma inherited_function (b : bool) k :
  member k Object_prototype_functions = true →
  inherited (ObjectPrototype b) k = Builtin.
Proof.
  intros Hk. unfold inherited, from_Object_prototype. rewrite Hk.
  destruct (String.eqb k "__proto__") eqn:Hp; [| done].
  apply String.eqb_eq in Hp. subst k. discriminate.
Qed.

Lemma inherited_Object_prototype (b : bool) k :
  is_member_name k = false → inherited (ObjectPrototype b) k = Undefined.
Proof.
  unfold is_member_name, inherited, from_Object_prototype.
  by intros [-> ->]%orb_false_iff.
Qed.

(** A spread keeps the own entries and is a plain object again. *)
Lemma spread_store_lookup s k : spread_store s !! k = s !! k.
Proof. reflexivity. Qed.

Lemma spread_store_twice s : spread_store (spread_store s) = spread_store s.
Proof. reflexivity. Qed.

Lemma read_on_spread_own s k v : s !! k = Some v → read_on_spread s k = Value v.
Proof. intros Hk. by apply get_own. Qed.

Lemma read_on_spread_not_own s k :
  s !! k = None →
  read_on_spread s k = inherited (ObjectPrototype (unsafe_proto_of (proto s))) k.
Proof. intros Hk. unfold read_on_spread. by rewrite get_not_own. Qed.

(** The identifier POST draws is assigned as an own entry. *)
Lemma assign_uuid (e : env) s v : assign (uuid e) v s = <[uuid e := v]> s.
Proof. apply assign_not_proto, member_name_not_proto, uuid_format. Qed.

End PlainObjects.

(** ** What PUT, PATCH and DELETE do to an own truthy entry *)

Lemma put_run
    (cfg : config) (e : env) (id : string) (auth : option string)
    (body : json) (w : world) :
  authorized cfg auth = true →
  truthy_prop (dataStore w !! id) = true →
  serve cfg e (PUT_json_id id auth (Stringified body)) w
  = if write_fails e
    then (internal_error,
          World (<[id := body]> (dataStore w)) (disk w)
                (console w ++ [ErrorUpdatingJson]))
    else (c_json (Some body) 200,
          World (<[id := body]> (dataStore w))
                (<[item_file id :=
                     File (Stringified (with_createdAt (Some body)
                                          (toISOString (now e))))
                          true (Some (now e))]> (disk w))
                (console w)).
Proof.
  intros Hauth Hin. destruct (get_truthy_own _ _ Hin) as [Hget _].
  assert (Hsome : is_Some (dataStore w !! id))
    by (destruct (dataStore w !! id); [by eexists | done]).
  run_handler. rewrite Hauth, Hget. simpl.
  rewrite (assign_own _ _ _ Hsome).
  destruct (write_fails e); simpl; [done |]. by rewrite get_insert_eq.
Qed.

Lemma patch_run
    (cfg : config) (e : env) (id : string) (auth : option string)
    (updates : json) (w : world) :
  authorized cfg auth = true →
  truthy_prop (dataStore w !! id) = true →
  let merged := spread2 (dataStore w !! id) (Some updates) in
  serve cfg e (PATCH_json_id id auth (Stringified updates)) w
  = if write_fails e
    then (internal_error,
          World (<[id := merged]> (dataStore w)) (disk w)
                (console w ++ [ErrorUpdatingJson]))
    else (c_json (Some merged) 200,
          World (<[id := merged]> (dataStore w))
                (<[item_file id :=
                     File (Stringified (with_createdAt (Some merged)
                                          (toISOString (now e))))
                          true (Some (now e))]> (disk w))
                (console w)).
Proof.
  intros Hauth Hin merged. destruct (get_truthy_own _ _ Hin) as [Hget Hjson].
  assert (Hsome : is_Some (dataStore w !! id))
    by (destruct (dataStore w !! id); [by eexists | done]).
  run_handler. rewrite Hauth, Hget, Hjson. simpl.
  rewrite (assign_own _ _ _ Hsome). fold merged.
  destruct (write_fails e); simpl; rewrite ?get_insert_eq; simpl;
    by rewrite ?get_insert_eq.
Qed.

Lemma delete_run
    (cfg : config) (e : env) (id : string) (auth : option string) (w : world) :
  authorized cfg auth = true →
  truthy_prop (dataStore w !! id) = true →
  serve cfg e (DELETE_json_id id auth) w
  = if remove_fails e (item_file id)
    then (internal_error,
          World (delete id (dataStore w)) (disk w)
                (console w ++ [ErrorDeletingJson]))
    else (c_json (Some (JObj {[ "message"%string := JStr "Json deleted successfully" ]}))
                 200,
          World (delete id (dataStore w)) (delete (item_file id) (disk w))
                (console w)).
Proof.
  intros Hauth Hin. destruct (get_truthy_own _ _ Hin) as [Hget _].
  run_handler. rewrite Hauth, Hget. simpl.
  destruct (remove_fails e (item_file id)); simpl; [done |].
  destruct (disk w !! item_file id) eqn:Hd; simpl; [done |].
  by rewrite (delete_id (disk w)) by done.
Qed.

(** A request on an identifier whose read on [dataStore] is falsy. *)
Lemma mutation_of_falsy_read
    (cfg : config) (e : env) (id : string) (auth : option string)
    (body : json) (w : world) :
  authorized cfg auth = true →
  to_boolean (get (dataStore w) id) = false →
  serve cfg e (PUT_json_id id auth (Stringified body)) w = (not_found, w) ∧
  serve cfg e (PATCH_json_id id auth (Stringified body)) w = (not_found, w) ∧
  serve cfg e (DELETE_json_id id auth) w = (not_found, w).
Proof.
  intros Hauth Hget. repeat split; run_handler; by rewrite Hauth, Hget.
Qed.

(** ** Mutations look at [dataStore] only *)

(** For an identifier that has no own entry in [dataStore] and inherits
    nothing truthy from the prototype, an authorised PUT, PATCH or DELETE
    answers 404 and leaves both stores as they are, whatever [DATA_DIR]
    holds: the handler does not read the directory. *)
Lemma mutation_of_missing_entry_is_not_found
    (cfg : config) (e : env) (id : string) (auth : option string)
    (body : json) (w : world) :
  authorized cfg auth = true →
  dataStore w !! id = None →
  to_boolean (inherited (proto (dataStore w)) id) = false →
  serve cfg e (PUT_json_id id auth (Stringified body)) w = (not_found, w) ∧
  serve cfg e (PATCH_json_id id auth (Stringified body)) w = (not_found, w) ∧
  serve cfg e (DELETE_json_id id auth) w = (not_found, w) ∧
  status not_found = 404.
Proof.
  intros Hauth Hmiss Hin.
  pose proof (get_absent _ _ Hmiss Hin) as Hget.
  repeat split; run_handler; rewrite Hauth, ?Hget; simpl; reflexivity.
Qed.

Lemma mutation_of_missing_entry_witness :
  authorized cfg0 key0 = true ∧
  dataStore disk_only !! "a"%string = None ∧
  is_Some (disk disk_only !! item_file "a") ∧
  serve cfg0 env0 (PUT_json_id "a" key0 (Stringified item_u)) disk_only
    = (not_found, disk_only) ∧
  serve cfg0 env0 (PATCH_json_id "a" key0 (Stringified item_u)) disk_only
    = (not_found, disk_only) ∧
  serve cfg0 env0 (DELETE_json_id "a" key0) disk_only
    = (not_found, disk_only) ∧
  status not_found = 404.
Proof.
  split; [reflexivity |]. split; [reflexivity |]. split; [by eexists |].
  apply (mutation_of_missing_entry_is_not_found cfg0 env0 "a" key0 item_u
           disk_only); reflexivity.
Defined.

(** C3 at concrete requests: [dataStore] is empty, so [constructor],
    [valueOf] and [toString] have no entry in it, yet the existence test
    [!dataStore[id]] reads the functions that a plain object inherits
    under these names. An authorised PUT of [constructor] answers 200 and
    creates the entry and the file; an authorised PATCH of [valueOf]
    answers 200 and creates them too; an authorised DELETE of [toString]
    answers 200. None answers 404. *)
Theorem mutation_of_an_inherited_name_is_accepted :
  dataStore world0 !! "constructor"%string = None ∧
  dataStore world0 !! "valueOf"%string = None ∧
  dataStore world0 !! "toString"%string = None ∧
  (let r := serve cfg0 env0 (PUT_json_id "constructor" key0 (Stringified item_t)) world0 in
   r.1 = c_json (Some item_t) 200 ∧
   dataStore r.2 !! "constructor"%string = Some item_t ∧
   is_Some (disk r.2 !! "constructor.json"%string)) ∧
  (let r := serve cfg0 env0 (PATCH_json_id "valueOf" key0 (Stringified item_t)) world0 in
   r.1 = c_json (Some item_t) 200 ∧
   dataStore r.2 !! "valueOf"%string = Some item_t ∧
   is_Some (disk r.2 !! "valueOf.json"%string)) ∧
  status (serve cfg0 env0 (DELETE_json_id "toString" key0) world0).1 = 200.
Proof.
  vm_compute. repeat split; try reflexivity; by eexists.
Qed.

(** The name [__proto__]. As the [Dockerfile] runs the server, Deno has
    removed the accessor and [__proto__] is a name like any other: on an
    empty store an authorised PUT of it answers 404. Where the accessor is
    left in place the read yields [Object.prototype], the PUT answers 200,
    and the assignment makes the body the prototype of [dataStore], so
    that [dataStore] then inherits the properties of the body. *)
Lemma put_of_the_name_proto :
  serve cfg0 env0 (PUT_json_id "__proto__" key0 (Stringified item_t)) world0
    = (not_found, world0) ∧
  (let w := World (MkStore ∅ (ObjectPrototype true)) ∅ [] in
   let r := serve cfg0 env0 (PUT_json_id "__proto__" key0 (Stringified item_t)) w in
   r.1 = c_json (Some item_t) 200 ∧
   dataStore r.2 !! "__proto__"%string = None ∧
   proto (dataStore r.2) = ObjectValue (own_props item_t) ∧
   get (dataStore r.2) "title" = Value (JStr "t")).
Proof. vm_compute. repeat split; reflexivity. Qed.

(** ** Malformed bodies *)

(** C9: PUT and PATCH parse the body before they look the item up, so an
    authorised request whose body is not JSON answers 400 for every
    identifier, stored or not, and changes neither store. *)
Theorem malformed_body_is_bad_request
    (cfg : config) (e : env) (id : string) (auth : option string) (w : world) :
  authorized cfg auth = true →
  serve cfg e (PUT_json_id id auth Malformed) w = (bad_request, w) ∧
  serve cfg e (PATCH_json_id id auth Malformed) w = (bad_request, w) ∧
  status bad_request = 400.
Proof.
  intros Hauth. repeat split; run_handler; rewrite Hauth; reflexivity.
Qed.

Lemma malformed_body_witness :
  authorized cfg0 key0 = true ∧
  serve cfg0 env0 (PUT_json_id "nobody" key0 Malformed) disk_only
    = (bad_request, disk_only) ∧
  serve cfg0 env0 (PATCH_json_id "nobody" key0 Malformed) disk_only
    = (bad_request, disk_only) ∧
  status bad_request = 400.
Proof.
  split; [reflexivity |].
  apply (malformed_body_is_bad_request cfg0 env0 "nobody" key0 disk_only);
    reflexivity.
Defined.

(** ** Create, then read *)

Lemma insert_createdAt_ne (m : gmap string json) (stamp : string) :
  m !! "createdAt"%string = None →
  Some (JObj m) ≠ Some (with_createdAt (Some (JObj m)) stamp).
Proof.
  intros Hm Heq.
  apply (f_equal (λ r : option json,
                    match r with
                    | Some (JObj x) => x !! "createdAt"%string
                    | _ => None
                    end)) in Heq.
  unfold with_createdAt in Heq. simpl in Heq.
  rewrite lookup_insert_eq, Hm in Heq. discriminate.
Qed.

(** What the handlers do for a truthy body: an authorised POST with a
    truthy body [B] stores [B] itself under the identifier drawn from the UUID generator
    and writes [B]'s properties plus [createdAt] to the item file only;
    when the write succeeds it answers 201 with that identifier, and a GET
    of the identifier answers 200 with exactly [B], without [createdAt]. *)
Theorem create_then_read
    (cfg : config) (e e' : env) (auth : option string) (origin : string)
    (B : json) (w : world) :
  authorized cfg auth = true →
  truthy B = true →
  let created := serve cfg e (POST_json auth origin (Stringified B)) w in
  dataStore created.2 !! uuid e = Some B ∧
  serve cfg e' (GET_json_id (uuid e)) created.2
    = (c_json (Some B) 200, created.2) ∧
  (write_fails e = false →
   created.1
     = c_json (Some (JObj (<["id" := JStr (uuid e)]>
                           (<["url" := JStr (origin +:+ "/json/" +:+ uuid e)]>
                            (<["data" := B]> ∅))))) 201 ∧
   disk created.2 !! item_file (uuid e)
     = Some (File (Stringified (with_createdAt (Some B) (toISOString (now e))))
                  true (Some (now e)))).
Proof.
  intros Hauth HB. run_handler. rewrite Hauth, assign_uuid.
  destruct (write_fails e) eqn:Hw; simpl;
    rewrite store_lookup_insert_eq, get_insert_eq; simpl; rewrite HB; simpl.
  - split; [done |]. split; [done |]. discriminate.
  - split; [done |]. split; [done |]. intros _. split; [done |].
    by rewrite lookup_insert_eq.
Qed.

Lemma create_then_read_witness :
  authorized cfg0 key0 = true ∧
  truthy item_t = true ∧
  let created :=
    serve cfg0 env0 (POST_json key0 "http://h" (Stringified item_t)) world0 in
  dataStore created.2 !! "id1"%string = Some item_t ∧
  serve cfg0 env1 (GET_json_id "id1") created.2
    = (c_json (Some item_t) 200, created.2) ∧
  (write_fails env0 = false →
   created.1
     = c_json (Some (JObj (<["id" := JStr "id1"]>
                           (<["url" := JStr "http://h/json/id1"]>
                            (<["data" := item_t]> ∅))))) 201 ∧
   disk created.2 !! "id1.json"%string
     = Some (File (Stringified (with_createdAt (Some item_t)
                                  "1970-01-01T00:00:00.000Z"))
                  true (Some 0))).
Proof.
  split; [reflexivity |]. split; [reflexivity |].
  apply (create_then_read cfg0 env0 env1 key0 "http://h" item_t world0);
    reflexivity.
Defined.

(** C1 at a concrete run: an authorised POST of [{title: "t"}] at time 0
    answers 201 with the identifier [id1] and writes [id1.json] with the
    body's properties plus [createdAt]; the GET of [id1] answers the body
    alone, served from [dataStore]: no stamp makes the answer equal to the
    body plus a [createdAt] property. The same GET after a restart of the
    process reads the file and answers the body plus [createdAt]. *)
Theorem read_after_create_has_no_createdAt :
  let created :=
    serve cfg0 env0 (POST_json key0 "http://h" (Stringified item_t)) world0 in
  let read := serve cfg0 env1 (GET_json_id "id1") created.2 in
  status created.1 = 201 ∧
  from_disk (disk created.2) "id1"
    = Some (with_createdAt (Some item_t) "1970-01-01T00:00:00.000Z") ∧
  read.1 = c_json (Some item_t) 200 ∧
  (¬ ∃ stamp : string,
       payload read.1 = Some (with_createdAt (Some item_t) stamp)) ∧
  (serve cfg0 env1 (GET_json_id "id1") (restart created.2)).1
    = c_json (Some (with_createdAt (Some item_t) "1970-01-01T00:00:00.000Z"))
        200.
Proof.
  split; [reflexivity |]. split; [reflexivity |]. split; [reflexivity |].
  split; [| reflexivity].
  intros [stamp H].
  assert (Hget : payload (serve cfg0 env1 (GET_json_id "id1")
                  (serve cfg0 env0
                     (POST_json key0 "http://h" (Stringified item_t)) world0).2).1
                 = Some item_t) by reflexivity.
  rewrite Hget in H.
  exact (insert_createdAt_ne (<["title" := JStr "t"]> ∅) stamp eq_refl H).
Qed.

(** ** The stamp written by the write-through helper *)

(** Whatever the item, a write-through that succeeds stamps the item file
    with the clock of that write. *)
Lemma write_through_stamps_now
    (e : env) (id : string) (data : option json) (w : world) :
  write_fails e = false →
  stored_createdAt (writeIndividualDataFile e id data w).2 id
    = Some (JStr (toISOString (now e))).
Proof.
  intros Hw. unfold stored_createdAt, from_disk, writeIndividualDataFile,
    writeTextFile, set_disk, JSON_stringify, with_createdAt.
  rewrite Hw. simpl. rewrite lookup_insert_eq. simpl.
  apply lookup_insert_eq.
Qed.

(** An authorised PUT on a stored item that reaches the disk leaves the
    item file stamped with the time of the PUT. *)
Lemma put_restamps
    (cfg : config) (e : env) (id : string) (auth : option string)
    (body : json) (w : world) :
  authorized cfg auth = true →
  truthy_prop (dataStore w !! id) = true →
  write_fails e = false →
  stored_createdAt (serve cfg e (PUT_json_id id auth (Stringified body)) w).2 id
    = Some (JStr (toISOString (now e))).
Proof.
  intros Hauth Hin Hw. rewrite put_run, Hw by done.
  unfold stored_createdAt, from_disk. simpl. rewrite lookup_insert_eq. simpl.
  apply lookup_insert_eq.
Qed.

(** The same for PATCH. *)
Lemma patch_restamps
    (cfg : config) (e : env) (id : string) (auth : option string)
    (updates : json) (w : world) :
  authorized cfg auth = true →
  truthy_prop (dataStore w !! id) = true →
  write_fails e = false →
  stored_createdAt (serve cfg e (PATCH_json_id id auth (Stringified updates)) w).2 id
    = Some (JStr (toISOString (now e))).
Proof.
  intros Hauth Hin Hw. rewrite patch_run, Hw by done.
  unfold stored_createdAt, from_disk. simpl. rewrite lookup_insert_eq. simpl.
  apply lookup_insert_eq.
Qed.

(** C2 at a concrete run: an item created at time 0, replaced at time 1000
    and patched at time 2000 carries three different [createdAt] stamps in
    its file, each the time of the last write; the stamp of the creation is
    lost at the first update. *)
Theorem createdAt_changes_on_update :
  let created :=
    (serve cfg0 env0 (POST_json key0 "http://h" (Stringified item_t)) world0).2 in
  let replaced :=
    (serve cfg0 env1 (PUT_json_id "id1" key0 (Stringified item_u)) created).2 in
  let patched :=
    (serve cfg0 env2 (PATCH_json_id "id1" key0 (Stringified update_x)) replaced).2 in
  stored_createdAt created "id1" = Some (JStr "1970-01-01T00:00:00.000Z") ∧
  stored_createdAt replaced "id1" = Some (JStr "1970-01-01T00:00:01.000Z") ∧
  stored_createdAt patched "id1" = Some (JStr "1970-01-01T00:00:02.000Z").
Proof. vm_compute. repeat split; reflexivity. Qed.

(** ** Partial update *)

(** An authorised PATCH on an item whose stored value is truthy merges the
    top-level properties of the body into the stored value: a key of the body takes
    the body's value, whole; a key absent from the body keeps its value;
    the merged value is stored and, when the write succeeds, answered. In
    particular [{content: "x"}] on [{title: "t", content: "c"}] gives
    [{title: "t", content: "x"}]. *)
Theorem patch_merges_top_level_keys
    (cfg : config) (e : env) (id : string) (auth : option string)
    (old updates : json) (w : world) :
  authorized cfg auth = true →
  dataStore w !! id = Some old →
  truthy old = true →
  let patched := serve cfg e (PATCH_json_id id auth (Stringified updates)) w in
  let merged := own_props updates ∪ own_props old in
  dataStore patched.2 !! id = Some (JObj merged) ∧
  (∀ k v, own_props updates !! k = Some v → merged !! k = Some v) ∧
  (∀ k, own_props updates !! k = None → merged !! k = own_props old !! k) ∧
  (write_fails e = false → patched.1 = c_json (Some (JObj merged)) 200) ∧
  (old = JObj (<["title" := JStr "t"]> (<["content" := JStr "c"]> ∅)) →
   updates = JObj (<["content" := JStr "x"]> ∅) →
   dataStore patched.2 !! id
     = Some (JObj (<["title" := JStr "t"]> (<["content" := JStr "x"]> ∅)))).
Proof.
  intros Hauth Hold Htruthy patched merged.
  assert (Hin : truthy_prop (dataStore w !! id) = true) by by rewrite Hold.
  pose proof (patch_run cfg e id auth updates w Hauth Hin) as Hrun.
  cbv zeta in Hrun. rewrite Hold in Hrun. fold patched in Hrun.
  assert (Hstored : dataStore patched.2 !! id = Some (JObj merged)).
  { rewrite Hrun. destruct (write_fails e); simpl;
      by rewrite store_lookup_insert_eq. }
  split; [exact Hstored |].
  split; [intros k v Hk; subst merged; by apply lookup_union_Some_l |].
  split; [intros k Hk; subst merged; by apply lookup_union_r |].
  split.
  - intros Hw. rewrite Hrun, Hw. reflexivity.
  - intros -> ->. rewrite Hstored. subst merged. reflexivity.
Qed.

Lemma patch_merges_witness :
  let w := World (<["a" := item_tc]> ∅) ∅ [] in
  let patched := serve cfg0 env0 (PATCH_json_id "a" key0 (Stringified update_x)) w in
  authorized cfg0 key0 = true ∧
  dataStore w !! "a"%string = Some item_tc ∧
  truthy item_tc = true ∧
  dataStore patched.2 !! "a"%string = Some item_tx ∧
  patched.1 = c_json (Some item_tx) 200.
Proof.
  pose proof (patch_merges_top_level_keys cfg0 env0 "a" key0 item_tc update_x
                (World (<["a" := item_tc]> ∅) ∅ [])
                eq_refl eq_refl eq_refl) as (_ & _ & _ & Hresp & Hex).
  split; [reflexivity |]. split; [reflexivity |]. split; [reflexivity |].
  split.
  - exact (Hex eq_refl eq_refl).
  - rewrite (Hresp eq_refl). vm_compute. reflexivity.
Defined.

(** C7 at a concrete run: an authorised POST with the body [0] answers 201
    with the identifier [id1] and stores [0] under it, in memory and in
    [id1.json]; the authorised PATCH of [id1] with [{content: "x"}] that
    follows answers 404 and merges nothing: [dataStore], the directory and
    the log are as the POST left them. The same holds for an item created
    with [false], with the empty string and with [null]. *)
Theorem patch_of_an_item_created_falsy_is_not_found :
  Forall (λ B : json,
    let created :=
      serve cfg0 env0 (POST_json key0 "http://h" (Stringified B)) world0 in
    let patched :=
      serve cfg0 env1 (PATCH_json_id "id1" key0 (Stringified update_x))
        created.2 in
    status created.1 = 201 ∧
    dataStore created.2 !! "id1"%string = Some B ∧
    is_Some (disk created.2 !! "id1.json"%string) ∧
    patched = (not_found, created.2))
    [JNum 0; JBool false; JStr ""; JNull].
Proof.
  repeat constructor; by eexists.
Qed.

(** ** Reading one item *)

Lemma get_one_from_memory (cfg : config) (e : env) (id : string) (w : world) :
  truthy_prop (dataStore w !! id) = true →
  serve cfg e (GET_json_id id) w = (c_json (dataStore w !! id) 200, w).
Proof.
  intros H. destruct (get_truthy_own _ _ H) as [Hget Hjson].
  run_handler. by rewrite Hget, Hjson.
Qed.

Lemma get_one_from_disk
    (cfg : config) (e : env) (id : string) (w : world) (v : json) :
  to_boolean (get (dataStore w) id) = false →
  from_disk (disk w) id = Some v →
  serve cfg e (GET_json_id id) w = (c_json (Some v) 200, w).
Proof.
  unfold from_disk. intros H Hd. run_handler. rewrite H.
  destruct (disk w !! item_file id) as [f|]; [| done].
  destruct (readable f); [| done].
  destruct (content f); [| done]. by injection Hd as ->.
Qed.

Lemma get_one_no_file (cfg : config) (e : env) (id : string) (w : world) :
  to_boolean (get (dataStore w) id) = false →
  disk w !! item_file id = None →
  serve cfg e (GET_json_id id) w = (not_found, w).
Proof. intros H Hd. run_handler. by rewrite H, Hd. Qed.


(** ** Listing all items *)

Lemma from_disk_absent (d : gmap string file) (id : string) :
  d !! item_file id = None → from_disk d id = None.
Proof. unfold from_disk. by intros ->. Qed.

Lemma listed_unfold (d : gmap string file) (b : bool)
    (result : gmap string json) (id : string) :
  listed d (MkStore result (ObjectPrototype b)) id
  = if to_boolean (get (MkStore result (ObjectPrototype b)) id)
    then result !! id
    else match from_disk d id with
         | Some v => Some v
         | None => result !! id
         end.
Proof. reflexivity. Qed.

Lemma listed_read_on_spread (d : gmap string file) (s : store) (id : string) :
  listed d s id
  = if to_boolean (read_on_spread s id)
    then s !! id
    else match from_disk d id with
         | Some v => Some v
         | None => s !! id
         end.
Proof. reflexivity. Qed.

Lemma listed_ext (d : gmap string file) (b : bool)
    (r r' : gmap string json) (id : string) :
  r !! id = r' !! id →
  listed d (MkStore r (ObjectPrototype b)) id
  = listed d (MkStore r' (ObjectPrototype b)) id.
Proof.
  intros Heq. rewrite !listed_unfold. unfold get. simpl. by rewrite Heq.
Qed.

Lemma listed_spread (d : gmap string file) (s : store) (id : string) :
  listed d (spread_store s) id = listed d s id.
Proof. reflexivity. Qed.

Lemma listed_truthy (d : gmap string file) (s : store) (id : string) (x : json) :
  s !! id = Some x → truthy x = true → listed d s id = Some x.
Proof.
  intros Hx Htr. rewrite listed_read_on_spread.
  by rewrite (read_on_spread_own _ _ _ Hx); simpl; rewrite Htr.
Qed.

Lemma listed_falsy (d : gmap string file) (s : store) (id : string) (x : json) :
  s !! id = Some x → truthy x = false →
  listed d s id = match from_disk d id with
                  | Some v => Some v
                  | None => Some x
                  end.
Proof.
  intros Hx Htr. rewrite listed_read_on_spread.
  by rewrite (read_on_spread_own _ _ _ Hx); simpl; rewrite Htr, Hx.
Qed.

Lemma listed_not_own (d : gmap string file) (s : store) (id : string) :
  s !! id = None →
  listed d s id
  = if to_boolean (inherited (ObjectPrototype (unsafe_proto_of (proto s))) id)
    then None else from_disk d id.
Proof.
  intros Hx. rewrite listed_read_on_spread.
  rewrite (read_on_spread_not_own _ _ Hx), Hx.
  destruct (to_boolean _); [done |]. by destruct (from_disk d id).
Qed.

Lemma listed_plain (d : gmap string file) (s : store) (id : string) :
  s !! id = None → is_member_name id = false → listed d s id = from_disk d id.
Proof.
  intros Hx Hname. rewrite (listed_not_own _ _ _ Hx).
  by rewrite (inherited_Object_prototype _ _ Hname).
Qed.

(** Where the loop assigns [result[id]], the read of [id] was falsy, so
    the assignment writes an own entry. *)
Lemma assign_after_falsy_read
    (b : bool) (result : gmap string json) (k : string) (v : json) :
  to_boolean (get (MkStore result (ObjectPrototype b)) k) = false →
  assign k v (MkStore result (ObjectPrototype b))
  = MkStore (<[k := v]> result) (ObjectPrototype b).
Proof.
  unfold assign, get. simpl. destruct (result !! k); [done |].
  unfold from_Object_prototype.
  destruct (String.eqb k "__proto__"); [| done]. by destruct b.
Qed.

(** One turn of the loop of GET /json: the stores are untouched, at most
    the entry of the file's identifier changes, and a file that cannot be
    read or parsed leaves one line on the console. *)
Lemma include_file_run
    (b : bool) (result : gmap string json) (name : string) (w : world) :
  ∃ (result' : gmap string json) (evs : list event),
    include_file (MkStore result (ObjectPrototype b)) name w
      = (inr (MkStore result' (ObjectPrototype b)),
         World (dataStore w) (disk w) (console w ++ evs)) ∧
    (∀ id, result' !! id
           = if decide (name = item_file id)
             then listed (disk w) (MkStore result (ObjectPrototype b)) id
             else result !! id) ∧
    (∀ id, name = item_file id →
           to_boolean (get (MkStore result (ObjectPrototype b)) id) = false →
           from_disk (disk w) id = None →
           ErrorReadingFile name ∈ evs).
Proof.
  assert (Hsame : ∀ r : store,
            (inr r, w) = (inr (B:=store) (A:=error) r,
                          World (dataStore w) (disk w) (console w ++ []))).
  { intros r. rewrite app_nil_r. by destruct w. }
  unfold include_file.
  destruct (endsWith name ".json") eqn:Hends.
  - apply endsWith_inv in Hends. set (id0 := slice_off 5 name) in *.
    assert (Hid : ∀ id, name = item_file id → id = id0).
    { intros id Hn. rewrite Hends in Hn. by apply item_file_inj in Hn. }
    destruct (to_boolean (get (MkStore result (ObjectPrototype b)) id0)) eqn:Htr;
      simpl.
    + exists result, []. split; [apply Hsame |]. split.
      * intros id. case_decide as Hn; [| done].
        apply Hid in Hn as ->. by rewrite listed_unfold, Htr.
      * intros id Hn Hf. apply Hid in Hn as ->. congruence.
    + assert (Hlisted : ∀ id, name = item_file id →
                listed (disk w) (MkStore result (ObjectPrototype b)) id
                = match from_disk (disk w) id0 with
                  | Some v => Some v
                  | None => result !! id0
                  end).
      { intros id Hn. apply Hid in Hn as ->. by rewrite listed_unfold, Htr. }
      assert (Hfd : from_disk (disk w) id0
                = match disk w !! name with
                  | Some f => if readable f then
                                match content f with
                                | Stringified v => Some v
                                | Malformed => None
                                end
                              else None
                  | None => None
                  end).
      { unfold from_disk. by rewrite <- Hends. }
      unfold try, readTextFile, JSON_parse, log, get_world, ret, throw, bind.
      simpl.
      destruct (disk w !! name) as [f|] eqn:Hd; simpl.
      * destruct (readable f) eqn:Hr; simpl.
        -- destruct (content f) as [v|] eqn:Hc; simpl.
           ++ rewrite (assign_after_falsy_read _ _ _ _ Htr).
              exists (<[id0 := v]> result), []. split; [apply Hsame |]. split.
              ** intros id. case_decide as Hn.
                 --- rewrite (Hlisted id Hn), Hfd.
                     apply Hid in Hn as ->. by rewrite lookup_insert_eq.
                 --- rewrite lookup_insert_ne; [done |].
                     intros <-. by apply Hn.
              ** intros id Hn _ Hnone. apply Hid in Hn as ->. congruence.
           ++ exists result, [ErrorReadingFile name]. split; [done |]. split.
              ** intros id. case_decide as Hn; [| done].
                 rewrite (Hlisted id Hn), Hfd. by apply Hid in Hn as ->.
              ** intros. set_solver.
        -- exists result, [ErrorReadingFile name]. split; [done |]. split.
           ** intros id. case_decide as Hn; [| done].
              rewrite (Hlisted id Hn), Hfd. by apply Hid in Hn as ->.
           ** intros. set_solver.
      * exists result, [ErrorReadingFile name]. split; [done |]. split.
        ** intros id. case_decide as Hn; [| done].
           rewrite (Hlisted id Hn), Hfd. by apply Hid in Hn as ->.
        ** intros. set_solver.
  - exists result, []. split; [apply Hsame |]. split.
    + intros id. case_decide as Hn; [| done].
      rewrite Hn, endsWith_item_file in Hends. discriminate.
    + intros id Hn. rewrite Hn, endsWith_item_file in Hends. discriminate.
Qed.

(** The whole loop, over directory entries that are pairwise distinct. *)
Lemma include_files_run (names : list string) :
  NoDup names →
  ∀ (b : bool) (result : gmap string json) (w : world),
  ∃ (result' : gmap string json) (evs : list event),
    for_each_acc names include_file (MkStore result (ObjectPrototype b)) w
      = (inr (MkStore result' (ObjectPrototype b)),
         World (dataStore w) (disk w) (console w ++ evs)) ∧
    (∀ id, result' !! id
           = if decide (item_file id ∈ names)
             then listed (disk w) (MkStore result (ObjectPrototype b)) id
             else result !! id) ∧
    (∀ id, item_file id ∈ names →
           to_boolean (get (MkStore result (ObjectPrototype b)) id) = false →
           from_disk (disk w) id = None →
           ErrorReadingFile (item_file id) ∈ evs).
Proof.
  induction 1 as [| name names Hfresh Hnodup IH]; intros b result w.
  - exists result, []. split; [| split].
    + simpl. unfold ret. rewrite app_nil_r. by destruct w.
    + intros id. case_decide as Hin; [| done]. by apply elem_of_nil in Hin.
    + intros id Hin. by apply elem_of_nil in Hin.
  - destruct (include_file_run b result name w)
      as (r1 & evs1 & Hrun1 & Hr1 & Hlog1).
    set (w1 := World (dataStore w) (disk w) (console w ++ evs1)) in *.
    destruct (IH b r1 w1) as (r2 & evs2 & Hrun2 & Hr2 & Hlog2).
    exists r2, (evs1 ++ evs2). split; [| split].
    + simpl. unfold bind at 1. rewrite Hrun1, Hrun2. simpl.
      by rewrite app_assoc.
    + intros id. rewrite Hr2. simpl.
      destruct (decide (name = item_file id)) as [-> | Hne].
      * rewrite decide_False by done. rewrite Hr1, decide_True by done.
        rewrite decide_True by (apply elem_of_cons; by left). done.
      * pose proof (Hr1 id) as Hsame. rewrite decide_False in Hsame by done.
        destruct (decide (item_file id ∈ names)) as [Hin | Hout].
        -- rewrite decide_True by (apply elem_of_cons; by right).
           by apply listed_ext.
        -- rewrite decide_False; [done |].
           intros Hin. apply elem_of_cons in Hin as [? | ?]; congruence.
    + intros id Hin Htr Hnone. apply elem_of_app.
      apply elem_of_cons in Hin as [Heq | Hin].
      * left. rewrite <- Heq in *. by apply (Hlog1 id).
      * right. apply (Hlog2 id Hin); [| done].
        unfold get in *. simpl in *. rewrite Hr1.
        rewrite decide_False; [done |].
        intros ->. by apply Hfresh.
Qed.

(** GET /json always answers 200 with an object; neither store changes;
    the entry of every identifier is [listed]; every item file that was
    consulted and could not be read or parsed is reported on the console. *)
Lemma get_all_run (cfg : config) (e : env) (w : world) :
  ∃ (result : gmap string json) (evs : list event),
    serve cfg e GET_json w
      = (c_json (Some (JObj result)) 200,
         World (dataStore w) (disk w) (console w ++ evs)) ∧
    (∀ id, result !! id = listed (disk w) (dataStore w) id) ∧
    (∀ id, is_Some (disk w !! item_file id) →
           to_boolean (read_on_spread (dataStore w) id) = false →
           from_disk (disk w) id = None →
           ErrorReadingFile (item_file id) ∈ evs).
Proof.
  destruct (include_files_run (map_to_list (disk w)).*1
              (NoDup_fst_map_to_list _)
              (unsafe_proto_of (proto (dataStore w))) (own (dataStore w)) w)
    as (result & evs & Hrun & Hres & Hlog).
  assert (Hin : ∀ id, item_file id ∈ (map_to_list (disk w)).*1
                      ↔ is_Some (disk w !! item_file id)).
  { intros id. rewrite list_elem_of_fmap. split.
    - intros [[n f] [Heq Hel]]. simpl in Heq. subst n.
      apply elem_of_map_to_list in Hel. by eexists.
    - intros [f Hf]. exists (item_file id, f). split; [done |].
      by apply elem_of_map_to_list. }
  exists result, evs. split; [| split].
  - unfold serve, route, get_all, try, readDir, get_world, ret, bind.
    cbn [fst snd]. fold (spread_store (dataStore w)) in Hrun.
    unfold bind in Hrun. by rewrite Hrun.
  - intros id. rewrite Hres. case_decide as Hd; [done |].
    unfold listed. rewrite from_disk_absent.
    + by destruct (to_boolean _).
    + rewrite Hin in Hd. by apply eq_None_not_Some.
  - intros id Hsome. apply Hlog. by apply Hin.
Qed.

(** ** Fallback reads *)

(** An item that is on disk only, under an identifier that has no own
    entry in [dataStore] and names nothing that [dataStore] or a plain
    object inherits, is served by both read paths; a truthy entry of
    [dataStore] is listed as it is; neither path changes [dataStore] or
    the directory. *)
Lemma disk_only_item_is_read
    (cfg : config) (e : env) (id : string) (v : json) (w : world) :
  dataStore w !! id = None →
  inherited (proto (dataStore w)) id = Undefined →
  is_member_name id = false →
  from_disk (disk w) id = Some v →
  serve cfg e (GET_json_id id) w = (c_json (Some v) 200, w) ∧
  ∃ (result : gmap string json) (evs : list event),
    serve cfg e GET_json w
      = (c_json (Some (JObj result)) 200,
         World (dataStore w) (disk w) (console w ++ evs)) ∧
    result !! id = Some v ∧
    (∀ id' x, dataStore w !! id' = Some x → truthy x = true →
              result !! id' = Some x).
Proof.
  intros Hmem Hin Hname Hdisk. split.
  - apply get_one_from_disk; [| done]. apply get_absent; [done |].
    by rewrite Hin.
  - destruct (get_all_run cfg e w) as (result & evs & Hrun & Hres & _).
    exists result, evs. split; [done |]. split.
    + by rewrite Hres, (listed_plain _ _ _ Hmem Hname).
    + intros id' x Hx Htr. by rewrite Hres, (listed_truthy _ _ _ _ Hx Htr).
Qed.

(** C4 at a concrete run: an item is created with the body [null]; the
    identifier is then present in [dataStore], with the value [null], and
    its file holds the stamp alone. The identifier is present in the
    snapshot, yet GET /json answers the content of the file for it: memory
    does not win this conflict. The same on a world where the file of such
    an entry holds [{title: "t"}]. *)
Theorem listing_overrides_a_null_entry :
  let created :=
    (serve cfg0 env0 (POST_json key0 "http://h" (Stringified JNull)) world0).2 in
  dataStore created !! "id1"%string = Some JNull ∧
  payload (serve cfg0 env1 GET_json created).1
    = Some (JObj (<["id1" := JObj (<["createdAt" := JStr "1970-01-01T00:00:00.000Z"]> ∅)]> ∅)) ∧
  dataStore null_in_memory !! "a"%string = Some JNull ∧
  serve cfg0 env0 GET_json null_in_memory
    = (c_json (Some (JObj (<["a" := item_t]> ∅))) 200, null_in_memory).
Proof. vm_compute. repeat split; reflexivity. Qed.

(** ** Truthiness as the test of existence *)

(** C8: an entry of [dataStore] whose value is falsy is treated as if it
    were not there. GET of the identifier does not answer it but goes to
    the directory: it answers the content of the item file, or 404 when
    there is no file. Authorised PUT, PATCH and DELETE answer 404 and
    change nothing. GET /json lists the content of the item file in place
    of the value in memory. *)
Theorem falsy_entry_is_treated_as_absent
    (cfg : config) (e : env) (id : string) (auth : option string)
    (body v : json) (w : world) :
  authorized cfg auth = true →
  dataStore w !! id = Some v →
  truthy v = false →
  (∀ x, from_disk (disk w) id = Some x →
        serve cfg e (GET_json_id id) w = (c_json (Some x) 200, w)) ∧
  (disk w !! item_file id = None →
   serve cfg e (GET_json_id id) w = (not_found, w)) ∧
  serve cfg e (PUT_json_id id auth (Stringified body)) w = (not_found, w) ∧
  serve cfg e (PATCH_json_id id auth (Stringified body)) w = (not_found, w) ∧
  serve cfg e (DELETE_json_id id auth) w = (not_found, w) ∧
  (∀ x, from_disk (disk w) id = Some x →
        ∃ (result : gmap string json) (w' : world),
          serve cfg e GET_json w = (c_json (Some (JObj result)) 200, w') ∧
          result !! id = Some x).
Proof.
  intros Hauth Hv Hfalsy.
  pose proof (get_falsy_own _ _ _ Hv Hfalsy) as Hget.
  destruct (mutation_of_falsy_read cfg e id auth body w Hauth Hget)
    as (Hput & Hpatch & Hdel).
  split; [| split; [| split; [| split; [| split]]]]; try done.
  - intros x Hx. by apply get_one_from_disk.
  - intros Hd. by apply get_one_no_file.
  - intros x Hx. destruct (get_all_run cfg e w) as (result & evs & Hrun & Hres & _).
    exists result, (World (dataStore w) (disk w) (console w ++ evs)).
    split; [done |]. by rewrite Hres, (listed_falsy _ _ _ _ Hv Hfalsy), Hx.
Qed.

Lemma falsy_entry_witness :
  authorized cfg0 key0 = true ∧
  dataStore null_in_memory !! "a"%string = Some JNull ∧
  truthy JNull = false ∧
  serve cfg0 env0 (GET_json_id "a") null_in_memory
    = (c_json (Some item_t) 200, null_in_memory) ∧
  serve cfg0 env0 (PUT_json_id "a" key0 (Stringified item_u)) null_in_memory
    = (not_found, null_in_memory) ∧
  serve cfg0 env0 (PATCH_json_id "a" key0 (Stringified item_u)) null_in_memory
    = (not_found, null_in_memory) ∧
  serve cfg0 env0 (DELETE_json_id "a" key0) null_in_memory
    = (not_found, null_in_memory) ∧
  ∃ (result : gmap string json) (w' : world),
    serve cfg0 env0 GET_json null_in_memory
      = (c_json (Some (JObj result)) 200, w') ∧
    result !! "a"%string = Some item_t.
Proof.
  pose proof (falsy_entry_is_treated_as_absent cfg0 env0 "a" key0 item_u JNull
                null_in_memory eq_refl eq_refl eq_refl)
    as (Hget & _ & Hput & Hpatch & Hdel & Hall).
  split; [reflexivity |]. split; [reflexivity |]. split; [reflexivity |].
  split; [exact (Hget item_t eq_refl) |].
  split; [exact Hput |]. split; [exact Hpatch |]. split; [exact Hdel |].
  exact (Hall item_t eq_refl).
Defined.

(** ** Files that cannot be read or parsed *)




(** ** The retention sweep *)

(** One turn of the loop of the sweep on an entry that is in the
    directory. *)
Lemma sweep_file_run
    (cfg : config) (e : env) (name : string) (w : world) :
  is_Some (disk w !! name) →
  ∃ w' : world,
    sweep_file cfg e (now e) name w = (inr tt, w') ∧
    disk w' = (if swept cfg e (disk w) name
               then delete name (disk w) else disk w) ∧
    dataStore w'
      = (if swept cfg e (disk w) name
            && truthy_prop (dataStore w !! slice_off 5 name)
         then delete (slice_off 5 name) (dataStore w) else dataStore w).
Proof.
  intros [f Hf]. unfold sweep_file, swept, expired. rewrite Hf.
  destruct (endsWith name ".json"); simpl; [| by exists w].
  unfold stat, get_world, ret, throw, bind at 1. simpl.
  unfold bind at 1. rewrite Hf.
  destruct (mtime f) as [m|]; [| by exists w].
  destruct (retentionMs cfg <? now e - m); simpl; [| by exists w].
  unfold try, remove, set_disk, set_dataStore, log, get_world, ret, throw, bind.
  destruct (remove_fails e name); simpl; [by eexists |].
  rewrite Hf. simpl.
  destruct (dataStore w !! slice_off 5 name) as [v|] eqn:Hown.
  - rewrite (get_own _ _ _ Hown). simpl. destruct (truthy v); by eexists.
  - rewrite (get_not_own _ _ Hown). simpl.
    destruct (to_boolean _); eexists; (split; [done |]); split; try done.
    simpl. apply store_eq; [| done]. by apply delete_id.
Qed.

(** The loop of the sweep over pairwise distinct entries of the
    directory. *)
Lemma sweep_files_run (cfg : config) (e : env) (names : list string) :
  NoDup names →
  ∀ w : world,
  (∀ n, n ∈ names → is_Some (disk w !! n)) →
  ∃ w' : world,
    for_each names (sweep_file cfg e (now e)) w = (inr tt, w') ∧
    (∀ n, disk w' !! n
          = if decide (n ∈ names)
            then (if swept cfg e (disk w) n then None else disk w !! n)
            else disk w !! n) ∧
    (∀ id, dataStore w' !! id
           = if decide (item_file id ∈ names)
             then (if swept cfg e (disk w) (item_file id)
                      && truthy_prop (dataStore w !! id)
                   then None else dataStore w !! id)
             else dataStore w !! id).
Proof.
  induction 1 as [| name names Hfresh Hnodup IH]; intros w Hdir.
  - exists w. split; [done |]. split; intros x; case_decide as Hin; try done;
      by apply elem_of_nil in Hin.
  - destruct (sweep_file_run cfg e name w) as (w1 & Hrun1 & Hdisk1 & Hmem1).
    { apply Hdir, elem_of_cons. by left. }
    assert (Hkeep : ∀ n, n ≠ name → disk w1 !! n = disk w !! n).
    { intros n Hn. rewrite Hdisk1.
      destruct (swept cfg e (disk w) name); [| done].
      by rewrite lookup_delete_ne. }
    assert (Hswept : ∀ n, n ≠ name →
              swept cfg e (disk w1) n = swept cfg e (disk w) n).
    { intros n Hn. unfold swept. by rewrite Hkeep. }
    destruct (IH w1) as (w2 & Hrun2 & Hdisk2 & Hmem2).
    { intros n Hn. rewrite Hkeep.
      - apply Hdir, elem_of_cons. by right.
      - intros ->. by apply Hfresh. }
    exists w2. split; [| split].
    + simpl. unfold bind at 1. by rewrite Hrun1.
    + intros n. rewrite Hdisk2.
      destruct (decide (n = name)) as [-> | Hne].
      * rewrite decide_False by done.
        rewrite decide_True by (apply elem_of_cons; by left).
        rewrite Hdisk1. destruct (swept cfg e (disk w) name); [| done].
        apply lookup_delete_eq.
      * rewrite Hswept, Hkeep by done.
        destruct (decide (n ∈ names)) as [Hin | Hout].
        -- by rewrite decide_True by (apply elem_of_cons; by right).
        -- rewrite decide_False; [done |].
           intros Hin. apply elem_of_cons in Hin as [? | ?]; congruence.
    + intros id. rewrite Hmem2.
      destruct (decide (item_file id = name)) as [<- | Hne].
      * rewrite decide_False by done.
        rewrite decide_True by (apply elem_of_cons; by left).
        rewrite Hmem1, slice_off_item_file.
        destruct (swept cfg e (disk w) (item_file id)
                  && truthy_prop (dataStore w !! id)); [| done].
        apply store_lookup_delete_eq.
      * assert (Hmem : dataStore w1 !! id = dataStore w !! id).
        { rewrite Hmem1.
          destruct (swept cfg e (disk w) name) eqn:Hsw; [| done].
          destruct (truthy_prop (dataStore w !! slice_off 5 name)); [| done].
          simpl. rewrite store_lookup_delete_ne; [done |].
          intros Heq. apply Hne. rewrite <- Heq.
          unfold swept in Hsw.
          apply andb_true_iff in Hsw as [Hsw _].
          apply andb_true_iff in Hsw as [Hends _].
          symmetry. by apply endsWith_inv. }
        rewrite Hmem, Hswept by done.
        destruct (decide (item_file id ∈ names)) as [Hin | Hout].
        -- by rewrite decide_True by (apply elem_of_cons; by right).
        -- rewrite decide_False; [done |].
           intros Hin. apply elem_of_cons in Hin as [? | ?]; congruence.
Qed.

(** What a sweep does to the two stores: the directory loses exactly the
    entries that are [swept]; [dataStore] loses exactly the entries whose
    item file is swept and whose value is truthy. *)
Lemma sweep_spec (cfg : config) (e : env) (w : world) :
  (∀ n, disk (sweep cfg e w) !! n
        = if swept cfg e (disk w) n then None else disk w !! n) ∧
  (∀ id, dataStore (sweep cfg e w) !! id
         = if swept cfg e (disk w) (item_file id)
              && truthy_prop (dataStore w !! id)
           then None else dataStore w !! id).
Proof.
  set (w0 := World (dataStore w) (disk w)
                   (console w ++ [StartingCleanup (retentionDays cfg)])).
  assert (Hin : ∀ n, n ∈ (map_to_list (disk w)).*1 ↔ is_Some (disk w !! n)).
  { intros n. rewrite list_elem_of_fmap. split.
    - intros [[n' f] [Heq Hel]]. simpl in Heq. subst n'.
      apply elem_of_map_to_list in Hel. by eexists.
    - intros [f Hf]. exists (n, f). split; [done |].
      by apply elem_of_map_to_list. }
  destruct (sweep_files_run cfg e (map_to_list (disk w)).*1
              (NoDup_fst_map_to_list _) w0)
    as (w' & Hrun & Hdisk & Hmem).
  { intros n Hn. by apply Hin. }
  assert (Hsweep : sweep cfg e w = w').
  { unfold sweep, cleanupOldFiles, try, readDir, log, get_world, ret, bind.
    simpl. unfold w0 in Hrun. by rewrite Hrun. }
  assert (Hout : ∀ n, n ∉ (map_to_list (disk w)).*1 →
            swept cfg e (disk w) n = false).
  { intros n Hn. rewrite Hin in Hn. apply eq_None_not_Some in Hn.
    unfold swept. rewrite Hn. simpl. by rewrite andb_false_r. }
  rewrite Hsweep. split.
  - intros n. rewrite Hdisk. simpl. case_decide as Hd; [done |].
    by rewrite Hout.
  - intros id. rewrite Hmem. simpl. case_decide as Hd; [done |].
    by rewrite Hout.
Qed.

(** Without a [retention] section the period is seven days. *)
Lemma retention_default (cfg : config) :
  retention cfg = None → retentionMs cfg = 7 * msPerDay.
Proof. unfold retentionMs, retentionDays. by intros ->. Qed.

(** An item file whose age exceeds the period is removed, and with it a
    truthy entry of its identifier in [dataStore], provided [Deno.remove]
    does not fail. *)
Lemma sweep_removes_old_file
    (cfg : config) (e : env) (id : string) (f : file) (m : Z) (w : world) :
  disk w !! item_file id = Some f →
  mtime f = Some m →
  retentionMs cfg < now e - m →
  remove_fails e (item_file id) = false →
  disk (sweep cfg e w) !! item_file id = None ∧
  (truthy_prop (dataStore w !! id) = true →
   dataStore (sweep cfg e w) !! id = None).
Proof.
  intros Hf Hm Hage Hrm. destruct (sweep_spec cfg e w) as [Hdisk Hmem].
  assert (Hsw : swept cfg e (disk w) (item_file id) = true).
  { unfold swept, expired. rewrite endsWith_item_file, Hf, Hm, Hrm. simpl.
    rewrite andb_true_r. by apply Z.ltb_lt. }
  split.
  - by rewrite Hdisk, Hsw.
  - intros Htr. by rewrite Hmem, Hsw, Htr.
Qed.

(** An entry of the directory whose age does not exceed the period stays,
    and so does the entry of its identifier in [dataStore]. *)
Lemma sweep_keeps_young_file
    (cfg : config) (e : env) (id : string) (f : file) (m : Z) (w : world) :
  disk w !! item_file id = Some f →
  mtime f = Some m →
  now e - m ≤ retentionMs cfg →
  disk (sweep cfg e w) !! item_file id = Some f ∧
  dataStore (sweep cfg e w) !! id = dataStore w !! id.
Proof.
  intros Hf Hm Hage. destruct (sweep_spec cfg e w) as [Hdisk Hmem].
  assert (Hsw : swept cfg e (disk w) (item_file id) = false).
  { unfold swept, expired. rewrite Hf, Hm.
    replace (retentionMs cfg <? now e - m) with false
      by (symmetry; apply Z.ltb_ge; lia).
    by rewrite andb_false_r. }
  split.
  - by rewrite Hdisk, Hsw.
  - by rewrite Hmem, Hsw.
Qed.

(** C5 at a concrete run: an item created with the body [null] at time 0
    has an item file and the entry [null] in [dataStore]. The sweep of day
    8 removes the file, but the entry of the identifier stays in
    [dataStore], and GET /json goes on listing it. *)
Theorem sweep_leaves_a_null_entry :
  let created :=
    (serve cfg0 env0 (POST_json key0 "http://h" (Stringified JNull)) world0).2 in
  let swept_world := sweep cfg0 env_day8 created in
  is_Some (disk created !! "id1.json"%string) ∧
  dataStore created !! "id1"%string = Some JNull ∧
  disk swept_world !! "id1.json"%string = None ∧
  dataStore swept_world !! "id1"%string = Some JNull ∧
  payload (serve cfg0 env_day8 GET_json swept_world).1
    = Some (JObj (<["id1" := JNull]> ∅)).
Proof.
  vm_compute. split; [by eexists |]. repeat split; reflexivity.
Qed.

(** ** The timer of the sweeper *)

Lemma nextRun_eq (tzo now : Z) :
  nextRun tzo now = next_jakarta_midnight now + (tzo + 420) * 60000.
Proof.
  unfold nextRun, setHours_0, setDate_next, LocalTime, UTC,
    getTimezoneOffset, next_jakarta_midnight, msPerDay. cbn [fixed
    offset_at_instant offset_at_local].
  replace (now + tzo * 60000 + 3600000 * 7 - tzo * 60000 + 86400000
           + tzo * 60000 - tzo * 60000)
    with (now + 7 * 3600000 + 1 * 86400000) by lia.
  rewrite Z.div_add by lia. lia.
Qed.

Lemma next_jakarta_midnight_spec (now : Z) :
  jakarta_midnight (next_jakarta_midnight now) ∧
  now < next_jakarta_midnight now ≤ now + msPerDay.
Proof.
  unfold jakarta_midnight, next_jakarta_midnight, msPerDay. split.
  - replace (((now + 7 * 3600000) / 86400000 + 1) * 86400000 - 7 * 3600000
             + 7 * 3600000)
      with (((now + 7 * 3600000) / 86400000 + 1) * 86400000) by lia.
    apply Z.mod_mul. lia.
  - pose proof (Z.div_mod (now + 7 * 3600000) 86400000 ltac:(lia)).
    pose proof (Z.mod_pos_bound (now + 7 * 3600000) 86400000 ltac:(lia)).
    lia.
Qed.


(** On a host whose zone is UTC+7 the timer is right: the delay is
    positive, at most a day, and the timer fires at the next midnight in
    Jakarta. *)
Lemma timer_on_a_jakarta_host (now : Z) :
  0 < scheduleCleanup (-420) now ≤ msPerDay ∧
  fires_at (-420) now = next_jakarta_midnight now ∧
  jakarta_midnight (fires_at (-420) now).
Proof.
  pose proof (next_jakarta_midnight_spec now) as [Hmid Hnext].
  assert (Hd : scheduleCleanup (-420) now = next_jakarta_midnight now - now).
  { unfold scheduleCleanup. rewrite nextRun_eq. lia. }
  assert (Hf : fires_at (-420) now = next_jakarta_midnight now).
  { unfold fires_at. rewrite Hd. lia. }
  split; [lia |]. split; [done |]. by rewrite Hf.
Qed.

(** On a host whose zone is UTC the timer never fires at midnight in
    Jakarta: it fires at midnight UTC, 07:00 in Jakarta, after a delay of
    more than seven hours. *)
Lemma timer_on_a_utc_host (now : Z) :
  7 * 3600000 < scheduleCleanup 0 now ∧
  (fires_at 0 now + 7 * 3600000) mod msPerDay = 7 * 3600000 ∧
  ¬ jakarta_midnight (fires_at 0 now).
Proof.
  pose proof (next_jakarta_midnight_spec now) as [Hmid Hnext].
  assert (Hd : scheduleCleanup 0 now = next_jakarta_midnight now - now + 7 * 3600000).
  { unfold scheduleCleanup. rewrite nextRun_eq. lia. }
  assert (Hf : fires_at 0 now = next_jakarta_midnight now + 7 * 3600000).
  { unfold fires_at. rewrite Hd. lia. }
  assert (Hmod : (fires_at 0 now + 7 * 3600000) mod msPerDay = 7 * 3600000).
  { rewrite Hf. unfold jakarta_midnight in Hmid.
    replace (next_jakarta_midnight now + 7 * 3600000 + 7 * 3600000)
      with (7 * 3600000 + (next_jakarta_midnight now + 7 * 3600000)) by lia.
    rewrite <- Zplus_mod_idemp_r, Hmid. reflexivity. }
  split; [lia |]. split; [done |].
  unfold jakarta_midnight. rewrite Hmod. unfold msPerDay. lia.
Qed.

(** C6 at concrete starts. The process starts at 1970-01-01T00:00:00Z on a
    host whose zone is UTC, as in the image of the Dockerfile: the first
    sweep is set for 1970-01-02T00:00:00Z, which is 07:00 in Jakarta,
    while the next midnight in Jakarta is 1970-01-01T17:00:00Z. The
    process starts at 00:30 local time on a host whose zone is UTC+8, which
    is 23:30 in Jakarta: the delay is negative and the timer fires at
    once. *)
Theorem first_sweep_is_not_at_jakarta_midnight :
  scheduleCleanup 0 0 = 86400000 ∧
  fires_at 0 0 = 86400000 ∧
  ¬ jakarta_midnight (fires_at 0 0) ∧
  next_jakarta_midnight 0 = 61200000 ∧
  scheduleCleanup (-480) 59400000 = -1800000 ∧
  fires_at (-480) 59400000 = 59400000.
Proof.
  repeat split; try reflexivity.
  unfold jakarta_midnight. vm_compute. discriminate.
Qed.

(** The callback sets the next timer whatever the sweep did. *)
Lemma timer_reschedules
    (cfg : config) (tzo : Z) (e : env) (after : Z) (w : world) :
  (on_timer cfg tzo e after w).1 = sweep cfg e w ∧
  (on_timer cfg tzo e after w).2 = fires_at tzo after ∧
  after ≤ (on_timer cfg tzo e after w).2.
Proof. unfold on_timer, fires_at. simpl. repeat split; lia. Qed.

(** * Further properties of the handlers and the sweeper *)

(** ** Authentication *)

(** A request is let through exactly when it carries the configured
    secret and that secret is not the empty string: with an empty secret
    no header is accepted, the empty one included. *)
Theorem authorized_iff (cfg : config) (authHeader : option string) :
  authorized cfg authHeader = true
  ↔ authHeader = Some (AUTH_HEADER cfg) ∧ AUTH_HEADER cfg ≠ ""%string.
Proof.
  unfold authorized. destruct authHeader as [h|].
  - rewrite andb_true_iff, negb_true_iff, String.eqb_eq, String.eqb_neq.
    split.
    + intros [Hne ->]. done.
    + intros [[= ->] Hne]. done.
  - split; [done | by intros [? _]].
Qed.

(** A mutating request without the right header answers 401, whatever its
    body, and changes nothing: the handler behind the middleware does not
    run. *)
Theorem unauthorized_request_changes_nothing
    (cfg : config) (e : env) (id origin : string) (auth : option string)
    (body : text) (w : world) :
  authorized cfg auth = false →
  serve cfg e (POST_json auth origin body) w = (unauthorized, w) ∧
  serve cfg e (PUT_json_id id auth body) w = (unauthorized, w) ∧
  serve cfg e (PATCH_json_id id auth body) w = (unauthorized, w) ∧
  serve cfg e (DELETE_json_id id auth) w = (unauthorized, w) ∧
  status unauthorized = 401.
Proof.
  intros Hauth. unfold serve, route, authMiddleware, ret. rewrite Hauth.
  done.
Qed.

Lemma unauthorized_request_witness :
  authorized cfg0 (Some "guess"%string) = false ∧
  authorized cfg0 None = false ∧
  serve cfg0 env0 (POST_json None "http://h" (Stringified item_t)) stored_a
    = (unauthorized, stored_a) ∧
  serve cfg0 env0 (DELETE_json_id "a" (Some "guess"%string)) stored_a
    = (unauthorized, stored_a).
Proof.
  split; [reflexivity |]. split; [reflexivity |]. split.
  - apply (unauthorized_request_changes_nothing cfg0 env0 "a" "http://h" None
             (Stringified item_t) stored_a eq_refl).
  - apply (unauthorized_request_changes_nothing cfg0 env0 "a" "http://h"
             (Some "guess"%string) Malformed stored_a eq_refl).
Defined.

(** ** Create *)

(** An authorised POST whose body is not JSON answers 400 and changes
    nothing: no identifier is drawn into the store. *)
Theorem post_malformed_body_is_bad_request
    (cfg : config) (e : env) (auth : option string) (origin : string)
    (w : world) :
  authorized cfg auth = true →
  serve cfg e (POST_json auth origin Malformed) w = (bad_request, w).
Proof. intros Hauth. run_handler. by rewrite Hauth. Qed.

Lemma post_malformed_body_witness :
  authorized cfg0 key0 = true ∧
  serve cfg0 env0 (POST_json key0 "http://h" Malformed) stored_a
    = (bad_request, stored_a).
Proof.
  split; [reflexivity |].
  apply (post_malformed_body_is_bad_request cfg0 env0 key0 "http://h" stored_a
           eq_refl).
Defined.

(** POST writes memory before the disk and does not undo it: when the
    write of the file fails the answer is 500, no file is written, yet the
    item is in [dataStore] under the drawn identifier, and a truthy item
    is served by GET from then on. *)
Theorem post_write_failure_keeps_the_memory_entry
    (cfg : config) (e e' : env) (auth : option string) (origin : string)
    (B : json) (w : world) :
  authorized cfg auth = true →
  write_fails e = true →
  let failed := serve cfg e (POST_json auth origin (Stringified B)) w in
  failed
    = (internal_error,
       World (<[uuid e := B]> (dataStore w)) (disk w)
             (console w ++ [ErrorCreatingJson])) ∧
  (truthy B = true →
   (serve cfg e' (GET_json_id (uuid e)) failed.2).1 = c_json (Some B) 200).
Proof.
  intros Hauth Hw. split.
  - run_handler. by rewrite Hauth, Hw, assign_uuid.
  - intros HB. run_handler. rewrite Hauth, Hw, assign_uuid. simpl.
    rewrite get_insert_eq. simpl. by rewrite HB.
Qed.

Lemma post_write_failure_witness :
  authorized cfg0 key0 = true ∧
  write_fails env_no_write = true ∧
  let failed :=
    serve cfg0 env_no_write (POST_json key0 "http://h" (Stringified item_t)) world0 in
  status failed.1 = 500 ∧
  disk failed.2 = ∅ ∧
  (serve cfg0 env1 (GET_json_id "id1") failed.2).1 = c_json (Some item_t) 200.
Proof.
  pose proof (post_write_failure_keeps_the_memory_entry cfg0 env_no_write env1
                key0 "http://h" item_t world0 eq_refl eq_refl) as [Hrun Hget].
  split; [reflexivity |]. split; [reflexivity |]. cbv zeta.
  split; [by rewrite Hrun |]. split; [by rewrite Hrun |].
  exact (Hget eq_refl).
Defined.

(** ** A mutation touches one item *)

(** PUT, PATCH and DELETE of an identifier other than [__proto__], and
    POST when it draws that identifier, leave every other identifier as
    it was, its own entry in [dataStore] and what a read of it on
    [dataStore] yields, and every other entry of the directory, whatever
    the body, the header and the outcome. *)
Theorem mutation_touches_one_item
    (cfg : config) (e : env) (id id' name origin : string)
    (auth : option string) (body : text) (w : world) :
  id' ≠ id →
  name ≠ item_file id →
  id ≠ "__proto__"%string →
  let untouched (w' : world) :=
    dataStore w' !! id' = dataStore w !! id' ∧
    get (dataStore w') id' = get (dataStore w) id' ∧
    disk w' !! name = disk w !! name in
  untouched (serve cfg e (PUT_json_id id auth body) w).2 ∧
  untouched (serve cfg e (PATCH_json_id id auth body) w).2 ∧
  untouched (serve cfg e (DELETE_json_id id auth) w).2 ∧
  (uuid e = id → untouched (serve cfg e (POST_json auth origin body) w).2).
Proof.
  intros Hid Hname Hproto untouched. subst untouched. simpl.
  assert (Hname' : item_file id ≠ name) by done.
  assert (Hid' : id ≠ id') by done.
  assert (Hassign : ∀ v s, assign id v s = <[id := v]> s).
  { intros v s. apply assign_not_proto. by apply String.eqb_neq. }
  split; [| split; [| split]].
  - run_handler. destruct (authorized cfg auth); [| done].
    destruct body as [v|]; simpl; [| done].
    destruct (to_boolean (get (dataStore w) id)); simpl; [| done].
    rewrite Hassign.
    destruct (write_fails e); simpl;
      by rewrite ?store_lookup_insert_ne, ?get_insert_ne, ?lookup_insert_ne
        by done.
  - run_handler. destruct (authorized cfg auth); [| done].
    destruct body as [v|]; simpl; [| done].
    destruct (to_boolean (get (dataStore w) id)); simpl; [| done].
    rewrite Hassign.
    destruct (write_fails e); simpl;
      by rewrite ?store_lookup_insert_ne, ?get_insert_ne, ?lookup_insert_ne
        by done.
  - run_handler. destruct (authorized cfg auth); [| done].
    destruct (to_boolean (get (dataStore w) id)); simpl; [| done].
    destruct (remove_fails e (item_file id)); simpl.
    + by rewrite store_lookup_delete_ne, get_delete_ne by done.
    + destruct (disk w !! item_file id); simpl;
        by rewrite ?store_lookup_delete_ne, ?get_delete_ne, ?lookup_delete_ne
          by done.
  - intros Hu. run_handler. rewrite Hu.
    destruct (authorized cfg auth); [| done].
    destruct body as [v|]; simpl; [| done].
    rewrite Hassign.
    destruct (write_fails e); simpl;
      by rewrite ?store_lookup_insert_ne, ?get_insert_ne, ?lookup_insert_ne
        by done.
Qed.

Lemma mutation_touches_one_item_witness :
  let after :=
    (serve cfg0 env0 (DELETE_json_id "a" key0) three_files).2 in
  "b"%string ≠ "a"%string ∧
  "b.json"%string ≠ item_file "a" ∧
  "a"%string ≠ "__proto__"%string ∧
  dataStore after !! "a"%string = None ∧
  dataStore after !! "b"%string = Some item_u ∧
  disk after !! "b.json"%string = disk three_files !! "b.json"%string.
Proof.
  assert (Hid : "b"%string ≠ "a"%string) by discriminate.
  assert (Hname : "b.json"%string ≠ item_file "a") by discriminate.
  assert (Hproto : "a"%string ≠ "__proto__"%string) by discriminate.
  pose proof (mutation_touches_one_item cfg0 env0 "a" "b" "b.json" "http://h"
                key0 Malformed three_files Hid Hname Hproto)
    as (_ & _ & (Hmem & _ & Hdisk) & _).
  split; [exact Hid |]. split; [exact Hname |]. split; [exact Hproto |].
  split; [reflexivity |]. split; [| exact Hdisk].
  rewrite Hmem. reflexivity.
Defined.

(** ** Replace *)

(** An authorised PUT on an item whose entry is truthy, when the write
    succeeds: the entry becomes the body, nothing of the former value is
    kept; the item file becomes the body's properties plus the stamp of
    the clock, modified now; the answer is 200 with the body; nothing is
    logged. *)
Theorem put_replaces_the_item
    (cfg : config) (e : env) (id : string) (auth : option string)
    (body : json) (w : world) :
  authorized cfg auth = true →
  truthy_prop (dataStore w !! id) = true →
  write_fails e = false →
  serve cfg e (PUT_json_id id auth (Stringified body)) w
    = (c_json (Some body) 200,
       World (<[id := body]> (dataStore w))
             (<[item_file id :=
                  File (Stringified (with_createdAt (Some body)
                                       (toISOString (now e))))
                       true (Some (now e))]> (disk w))
             (console w)).
Proof.
  intros Hauth Hin Hw. by rewrite put_run, Hw.
Qed.

Lemma put_replaces_witness :
  authorized cfg0 key0 = true ∧
  truthy_prop (dataStore stored_a !! "a"%string) = true ∧
  write_fails env1 = false ∧
  let replaced :=
    serve cfg0 env1 (PUT_json_id "a" key0 (Stringified item_u)) stored_a in
  replaced.1 = c_json (Some item_u) 200 ∧
  dataStore replaced.2 !! "a"%string = Some item_u ∧
  from_disk (disk replaced.2) "a"
    = Some (with_createdAt (Some item_u) "1970-01-01T00:00:01.000Z").
Proof.
  pose proof (put_replaces_the_item cfg0 env1 "a" key0 item_u stored_a
                eq_refl eq_refl eq_refl) as Hrun.
  split; [reflexivity |]. split; [reflexivity |]. split; [reflexivity |].
  cbv zeta. rewrite Hrun. repeat split; reflexivity.
Defined.

(** PUT and PATCH write memory before the disk and do not undo it: when
    the write of the file fails the answer is 500 and the directory is as
    it was, yet the entry in [dataStore] already holds the new value, so
    memory and disk disagree. *)
Theorem update_write_failure_keeps_the_memory_update
    (cfg : config) (e : env) (id : string) (auth : option string)
    (body : json) (w : world) :
  authorized cfg auth = true →
  truthy_prop (dataStore w !! id) = true →
  write_fails e = true →
  serve cfg e (PUT_json_id id auth (Stringified body)) w
    = (internal_error,
       World (<[id := body]> (dataStore w)) (disk w)
             (console w ++ [ErrorUpdatingJson])) ∧
  serve cfg e (PATCH_json_id id auth (Stringified body)) w
    = (internal_error,
       World (<[id := spread2 (dataStore w !! id) (Some body)]> (dataStore w))
             (disk w) (console w ++ [ErrorUpdatingJson])).
Proof.
  intros Hauth Hin Hw. split.
  - by rewrite put_run, Hw.
  - rewrite patch_run by done. by rewrite Hw.
Qed.

Lemma update_write_failure_witness :
  authorized cfg0 key0 = true ∧
  truthy_prop (dataStore stored_a !! "a"%string) = true ∧
  write_fails env_no_write = true ∧
  let failed :=
    serve cfg0 env_no_write (PUT_json_id "a" key0 (Stringified item_u)) stored_a in
  status failed.1 = 500 ∧
  dataStore failed.2 !! "a"%string = Some item_u ∧
  from_disk (disk failed.2) "a" = Some item_tc.
Proof.
  pose proof (update_write_failure_keeps_the_memory_update cfg0 env_no_write
                "a" key0 item_u stored_a eq_refl eq_refl eq_refl) as [Hput _].
  split; [reflexivity |]. split; [reflexivity |]. split; [reflexivity |].
  cbv zeta. rewrite Hput. repeat split; reflexivity.
Defined.

(** ** Delete *)

(** Removing the file of an item is idempotent: when [Deno.remove] does
    not fail otherwise, the helper returns normally whether the file is
    there or not, leaves exactly the directory without the file, touches
    nothing else, and running it again changes nothing. *)
Theorem deleteIndividualDataFile_is_idempotent
    (e : env) (id : string) (w : world) :
  remove_fails e (item_file id) = false →
  let w1 := World (dataStore w) (delete (item_file id) (disk w)) (console w) in
  deleteIndividualDataFile e id w = (inr tt, w1) ∧
  deleteIndividualDataFile e id w1 = (inr tt, w1).
Proof.
  intros Hrm w1.
  assert (Honce : ∀ w0 : world,
            deleteIndividualDataFile e id w0
            = (inr tt, World (dataStore w0) (delete (item_file id) (disk w0))
                             (console w0))).
  { intros w0. unfold deleteIndividualDataFile, remove, try, bind, get_world,
      set_disk, ret, throw. rewrite Hrm. simpl.
    destruct (disk w0 !! item_file id) eqn:Hd; simpl; [done |].
    rewrite delete_id by done. by destruct w0. }
  split; [apply Honce |].
  rewrite Honce. subst w1. simpl. by rewrite delete_delete_eq.
Qed.

Lemma deleteIndividualDataFile_witness :
  remove_fails env0 (item_file "gone") = false ∧
  disk stored_a !! item_file "gone" = None ∧
  deleteIndividualDataFile env0 "gone" stored_a = (inr tt, stored_a).
Proof.
  pose proof (deleteIndividualDataFile_is_idempotent env0 "gone" stored_a
                eq_refl) as [Hrun _].
  split; [reflexivity |]. split; [reflexivity |].
  rewrite Hrun. reflexivity.
Defined.

(** An authorised DELETE of an item whose entry is truthy, when the
    removal does not fail: the answer is 200, the entry and the file are
    gone (a file that was already missing is no error), nothing is logged.
    When the identifier inherits nothing truthy from the prototype of
    [dataStore], a GET of it and a second DELETE then answer 404. *)
Theorem delete_removes_the_item
    (cfg : config) (e e' : env) (id : string) (auth : option string)
    (w : world) :
  authorized cfg auth = true →
  truthy_prop (dataStore w !! id) = true →
  remove_fails e (item_file id) = false →
  let w1 := World (delete id (dataStore w)) (delete (item_file id) (disk w))
                  (console w) in
  serve cfg e (DELETE_json_id id auth) w
    = (c_json (Some (JObj {[ "message"%string := JStr "Json deleted successfully" ]}))
              200, w1) ∧
  (to_boolean (inherited (proto (dataStore w)) id) = false →
   serve cfg e' (GET_json_id id) w1 = (not_found, w1) ∧
   serve cfg e' (DELETE_json_id id auth) w1 = (not_found, w1)).
Proof.
  intros Hauth Hin Hrm w1. split.
  - by rewrite delete_run, Hrm.
  - intros Hinh.
    assert (Hget : to_boolean (get (dataStore w1) id) = false).
    { subst w1. simpl. by rewrite get_delete_eq. }
    split.
    + apply get_one_no_file; [done |]. subst w1. simpl.
      by rewrite lookup_delete_eq.
    + by apply (mutation_of_falsy_read cfg e' id auth JNull w1).
Qed.

Lemma delete_removes_witness :
  authorized cfg0 key0 = true ∧
  truthy_prop (dataStore stored_a !! "a"%string) = true ∧
  remove_fails env0 (item_file "a") = false ∧
  let deleted := serve cfg0 env0 (DELETE_json_id "a" key0) stored_a in
  status deleted.1 = 200 ∧
  dataStore deleted.2 !! "a"%string = None ∧
  disk deleted.2 !! "a.json"%string = None ∧
  (serve cfg0 env1 (GET_json_id "a") deleted.2).1 = not_found.
Proof.
  pose proof (delete_removes_the_item cfg0 env0 env1 "a" key0 stored_a
                eq_refl eq_refl eq_refl) as (Hdel & Hafter).
  destruct (Hafter eq_refl) as [Hget _].
  split; [reflexivity |]. split; [reflexivity |]. split; [reflexivity |].
  cbv zeta. rewrite Hdel. cbn [fst snd].
  split; [reflexivity |]. split; [reflexivity |]. split; [reflexivity |].
  by rewrite Hget.
Defined.

(** DELETE removes the entry from memory before the file and does not
    undo it: when the removal of the file fails the answer is 500, the
    entry is gone and the file is still there. When the identifier
    inherits nothing truthy from the prototype of [dataStore], the item
    is then still served by GET from its file, and a second DELETE answers
    404: it can no longer be deleted through the interface. *)
Theorem delete_failure_leaves_the_file
    (cfg : config) (e e' : env) (id : string) (auth : option string)
    (w : world) :
  authorized cfg auth = true →
  truthy_prop (dataStore w !! id) = true →
  remove_fails e (item_file id) = true →
  let w1 := World (delete id (dataStore w)) (disk w)
                  (console w ++ [ErrorDeletingJson]) in
  serve cfg e (DELETE_json_id id auth) w = (internal_error, w1) ∧
  (to_boolean (inherited (proto (dataStore w)) id) = false →
   (∀ v, from_disk (disk w) id = Some v →
         serve cfg e' (GET_json_id id) w1 = (c_json (Some v) 200, w1)) ∧
   serve cfg e' (DELETE_json_id id auth) w1 = (not_found, w1)).
Proof.
  intros Hauth Hin Hrm w1. split.
  - by rewrite delete_run, Hrm.
  - intros Hinh.
    assert (Hget : to_boolean (get (dataStore w1) id) = false).
    { subst w1. simpl. by rewrite get_delete_eq. }
    split.
    + intros v Hv. by apply get_one_from_disk.
    + by apply (mutation_of_falsy_read cfg e' id auth JNull w1).
Qed.

Lemma delete_failure_witness :
  authorized cfg0 key0 = true ∧
  truthy_prop (dataStore stored_a !! "a"%string) = true ∧
  remove_fails env_no_remove (item_file "a") = true ∧
  let failed := serve cfg0 env_no_remove (DELETE_json_id "a" key0) stored_a in
  status failed.1 = 500 ∧
  (serve cfg0 env1 (GET_json_id "a") failed.2).1 = c_json (Some item_tc) 200 ∧
  (serve cfg0 env1 (DELETE_json_id "a" key0) failed.2).1 = not_found.
Proof.
  pose proof (delete_failure_leaves_the_file cfg0 env_no_remove env1 "a" key0
                stored_a eq_refl eq_refl eq_refl) as (Hdel & Hafter).
  destruct (Hafter eq_refl) as [Hget Hagain].
  split; [reflexivity |]. split; [reflexivity |]. split; [reflexivity |].
  cbv zeta. rewrite Hdel. cbn [fst snd].
  split; [reflexivity |]. split.
  - by rewrite (Hget item_tc eq_refl).
  - by rewrite Hagain.
Defined.

(** ** Reads *)

(** GET of one identifier never changes [dataStore] or the directory. It
    answers 404 exactly when the read of the identifier on [dataStore] is
    falsy (no truthy own entry, nothing truthy inherited) and there is no
    item file; otherwise 200 or, for a file that cannot be read or parsed,
    500; only a 500 leaves a line on the console. *)
Theorem get_one_only_reads
    (cfg : config) (e : env) (id : string) (w : world) :
  let r := serve cfg e (GET_json_id id) w in
  dataStore r.2 = dataStore w ∧
  disk r.2 = disk w ∧
  (status r.1 = 404
   ↔ to_boolean (get (dataStore w) id) = false
     ∧ disk w !! item_file id = None) ∧
  (status r.1 = 200 ∨ status r.1 = 404 ∨ status r.1 = 500) ∧
  (status r.1 ≠ 500 → r.2 = w).
Proof.
  run_handler.
  destruct (to_boolean (get (dataStore w) id)) eqn:Htr; simpl.
  { repeat split; try done; try (by left); intros [? _]; done. }
  destruct (disk w !! item_file id) as [f|] eqn:Hd; simpl.
  - destruct (readable f); simpl.
    + destruct (content f); simpl;
        repeat split; try done; try (by left); try (by right; right);
        intros [_ ?]; done.
    + repeat split; try done; try (by right; right); intros [_ ?]; done.
  - repeat split; try done. by right; left.
Qed.

(** A truthy entry of [dataStore] is what both read paths answer for its
    identifier, whatever the item file holds, be it different, unreadable
    or not JSON; GET of the identifier does not look at the directory and
    logs nothing. *)
Theorem truthy_entry_is_served_from_memory
    (cfg : config) (e : env) (id : string) (v : json) (w : world) :
  dataStore w !! id = Some v →
  truthy v = true →
  serve cfg e (GET_json_id id) w = (c_json (Some v) 200, w) ∧
  ∃ (result : gmap string json) (evs : list event),
    serve cfg e GET_json w
      = (c_json (Some (JObj result)) 200,
         World (dataStore w) (disk w) (console w ++ evs)) ∧
    result !! id = Some v.
Proof.
  intros Hv Htr. split.
  - rewrite get_one_from_memory by (by rewrite Hv). by rewrite Hv.
  - destruct (get_all_run cfg e w) as (result & evs & Hrun & Hres & _).
    exists result, evs. split; [done |].
    by rewrite Hres, (listed_truthy _ _ _ _ Hv Htr).
Qed.

Lemma truthy_entry_witness :
  dataStore memory_over_bad_file !! "a"%string = Some item_t ∧
  truthy item_t = true ∧
  content <$> disk memory_over_bad_file !! "a.json"%string = Some Malformed ∧
  serve cfg0 env0 (GET_json_id "a") memory_over_bad_file
    = (c_json (Some item_t) 200, memory_over_bad_file).
Proof.
  pose proof (truthy_entry_is_served_from_memory cfg0 env0 "a" item_t
                memory_over_bad_file eq_refl eq_refl) as [Hget _].
  split; [reflexivity |]. split; [reflexivity |]. split; [reflexivity |].
  exact Hget.
Defined.

Lemma disk_only_item_witness :
  dataStore disk_only !! "a"%string = None ∧
  inherited (proto (dataStore disk_only)) "a" = Undefined ∧
  is_member_name "a" = false ∧
  from_disk (disk disk_only) "a" = Some item_t ∧
  serve cfg0 env0 (GET_json_id "a") disk_only
    = (c_json (Some item_t) 200, disk_only) ∧
  ∃ (result : gmap string json) (evs : list event),
    serve cfg0 env0 GET_json disk_only
      = (c_json (Some (JObj result)) 200,
         World (dataStore disk_only) (disk disk_only)
               (console disk_only ++ evs)) ∧
    result !! "a"%string = Some item_t.
Proof.
  pose proof (disk_only_item_is_read cfg0 env0 "a" item_t disk_only
                eq_refl eq_refl eq_refl eq_refl)
    as [Hget (result & evs & Hrun & Hres & _)].
  split; [reflexivity |]. split; [reflexivity |]. split; [reflexivity |].
  split; [reflexivity |]. split; [exact Hget |].
  exists result, evs. split; [exact Hrun | exact Hres].
Defined.

(** GET /json always answers 200 with an object and changes neither
    store; an identifier is listed exactly when it has an own entry in
    [dataStore], truthy or not, or the read of it on the spread of
    [dataStore] is falsy and it has an item file that can be read and
    parsed. So an identifier that is no member name of [Object.prototype]
    is listed exactly when it has an own entry or such a file, and the
    name of a function of [Object.prototype], [constructor] for one, is
    listed only when it has an own entry: its file is skipped. *)
Theorem get_all_lists_memory_and_valid_files
    (cfg : config) (e : env) (w : world) :
  ∃ (result : gmap string json) (evs : list event),
    serve cfg e GET_json w
      = (c_json (Some (JObj result)) 200,
         World (dataStore w) (disk w) (console w ++ evs)) ∧
    (∀ id, is_Some (result !! id)
           ↔ is_Some (dataStore w !! id)
             ∨ (to_boolean (read_on_spread (dataStore w) id) = false
                ∧ is_Some (from_disk (disk w) id))) ∧
    (∀ id, is_member_name id = false →
           (is_Some (result !! id)
            ↔ is_Some (dataStore w !! id) ∨ is_Some (from_disk (disk w) id))) ∧
    (∀ id, member id Object_prototype_functions = true →
           (is_Some (result !! id) ↔ is_Some (dataStore w !! id))).
Proof.
  destruct (get_all_run cfg e w) as (result & evs & Hrun & Hres & _).
  exists result, evs. split; [done |].
  assert (Hown : ∀ id v, dataStore w !! id = Some v → is_Some (result !! id)).
  { intros id v Hv. rewrite Hres, listed_read_on_spread, Hv.
    destruct (to_boolean _); [by eexists |].
    destruct (from_disk (disk w) id); by eexists. }
  split; [| split].
  - intros id. destruct (dataStore w !! id) as [v|] eqn:Hv.
    + split; [intros _; left; by eexists | intros _; by eapply Hown].
    + rewrite Hres, listed_read_on_spread, Hv.
      destruct (to_boolean _).
      * split; [intros [? ?]; done | intros [[? ?] | [? _]]; done].
      * destruct (from_disk (disk w) id) as [x|].
        -- split; [intros _; right; split; [done | by eexists] |].
           intros _. by eexists.
        -- split; [intros [? ?]; done | intros [[? ?] | [_ [? ?]]]; done].
  - intros id Hname. destruct (dataStore w !! id) as [v|] eqn:Hv.
    + split; [intros _; left; by eexists | intros _; by eapply Hown].
    + rewrite Hres, (listed_plain _ _ _ Hv Hname).
      split; [intros ?; by right | intros [[? ?] | ?]; done].
  - intros id Hfun. destruct (dataStore w !! id) as [v|] eqn:Hv.
    + split; [intros _; by eexists | intros _; by eapply Hown].
    + rewrite Hres, (listed_not_own _ _ _ Hv), (inherited_function _ _ Hfun).
      done.
Qed.

(** Entries of the directory whose name does not end in [.json] are not
    items: when the directory holds no other entries, GET /json answers
    exactly the content of [dataStore]. *)
Theorem get_all_ignores_other_files
    (cfg : config) (e : env) (w : world) :
  (∀ name f, disk w !! name = Some f → endsWith name ".json" = false) →
  ∃ evs : list event,
    serve cfg e GET_json w
      = (c_json (Some (JObj (dataStore w))) 200,
         World (dataStore w) (disk w) (console w ++ evs)).
Proof.
  intros Hnone.
  destruct (get_all_run cfg e w) as (result & evs & Hrun & Hres & _).
  exists evs. rewrite Hrun. do 4 f_equal.
  apply map_eq. intros id. rewrite Hres, listed_read_on_spread.
  unfold from_disk.
  destruct (disk w !! item_file id) as [f|] eqn:Hd.
  - apply Hnone in Hd. rewrite endsWith_item_file in Hd. discriminate.
  - by destruct (to_boolean _).
Qed.

Lemma get_all_ignores_other_files_witness :
  is_Some (disk no_item_files !! "notes.txt"%string) ∧
  ∃ evs : list event,
    serve cfg0 env0 GET_json no_item_files
      = (c_json (Some (JObj (<["a" := item_t]> ∅))) 200,
         World (dataStore no_item_files) (disk no_item_files)
               (console no_item_files ++ evs)).
Proof.
  split; [by eexists |].
  apply (get_all_ignores_other_files cfg0 env0 no_item_files).
  intros name f Hf. unfold no_item_files in Hf. simpl in Hf.
  destruct (decide (name = "notes.txt"%string)) as [-> | Hne]; [reflexivity |].
  rewrite lookup_insert_ne in Hf by done. by rewrite lookup_empty in Hf.
Defined.

(** ** Across a restart *)

(** What survives a restart is the item file, not the entry in memory:
    after an authorised POST whose write succeeded and a restart, GET of
    the identifier answers the body's properties plus the [createdAt]
    stamp of the write, for every body, the falsy ones included. *)
Theorem item_is_read_from_disk_after_restart
    (cfg : config) (e e' : env) (auth : option string) (origin : string)
    (B : json) (w : world) :
  authorized cfg auth = true →
  write_fails e = false →
  let w1 := restart (serve cfg e (POST_json auth origin (Stringified B)) w).2 in
  serve cfg e' (GET_json_id (uuid e)) w1
    = (c_json (Some (with_createdAt (Some B) (toISOString (now e)))) 200, w1).
Proof.
  intros Hauth Hw w1. apply get_one_from_disk.
  - subst w1. unfold restart. cbn [dataStore].
    rewrite get_not_own by apply lookup_empty. cbn [proto store_empty empty].
    by rewrite (inherited_Object_prototype _ _ (uuid_format e)).
  - subst w1. unfold restart, from_disk. run_handler. rewrite Hauth, Hw. simpl.
    by rewrite lookup_insert_eq.
Qed.

Lemma item_after_restart_witness :
  authorized cfg0 key0 = true ∧
  write_fails env0 = false ∧
  let w1 :=
    restart (serve cfg0 env0 (POST_json key0 "http://h" (Stringified item_t))
               world0).2 in
  (serve cfg0 env1 (GET_json_id "id1") w1).1
    = c_json (Some (JObj (<["title" := JStr "t"]>
                          (<["createdAt" := JStr "1970-01-01T00:00:00.000Z"]> ∅))))
             200.
Proof.
  pose proof (item_is_read_from_disk_after_restart cfg0 env0 env1 key0
                "http://h" item_t world0 eq_refl eq_refl) as Hget.
  split; [reflexivity |]. split; [reflexivity |].
  cbv zeta in Hget |- *. change (uuid env0) with "id1"%string in Hget.
  rewrite Hget. vm_compute. reflexivity.
Defined.

(** ** Identifiers and file names *)

(** The file name of an item and the identifier recovered from a
    directory entry are inverse to each other: [id + ".json"] ends in
    [.json] and loses it to give [id] back, and every entry whose name
    ends in [.json] is the item file of the identifier the handlers
    recover from it. *)
Theorem item_file_round_trip :
  (∀ id, endsWith (item_file id) ".json" = true
         ∧ slice_off 5 (item_file id) = id) ∧
  (∀ name, endsWith name ".json" = true
           ↔ ∃ id, name = item_file id ∧ slice_off 5 name = id).
Proof.
  split.
  - intros id. split; [apply endsWith_item_file | apply slice_off_item_file].
  - intros name. split.
    + intros Hends. exists (slice_off 5 name). split; [| done].
      by apply endsWith_inv.
    + intros (id & -> & _). apply endsWith_item_file.
Qed.

(** ** The content of an item file *)

(** The object written for an item holds the server's stamp under
    [createdAt], also when the item has a [createdAt] of its own, and
    every other property of the item with its value. *)
Theorem written_file_carries_the_servers_stamp
    (e : env) (id : string) (data : option json) (w : world) :
  write_fails e = false →
  ∃ m : gmap string json,
    from_disk (disk (writeIndividualDataFile e id data w).2) id = Some (JObj m) ∧
    m !! "createdAt"%string = Some (JStr (toISOString (now e))) ∧
    (∀ k, k ≠ "createdAt"%string → m !! k = spread data !! k).
Proof.
  intros Hw. exists (<["createdAt" := JStr (toISOString (now e))]> (spread data)).
  split; [| split].
  - unfold from_disk, writeIndividualDataFile, writeTextFile, set_disk,
      JSON_stringify, with_createdAt. rewrite Hw. simpl.
    by rewrite lookup_insert_eq.
  - apply lookup_insert_eq.
  - intros k Hk. by rewrite lookup_insert_ne.
Qed.

Lemma written_file_witness :
  write_fails env1 = false ∧
  from_disk
    (disk (writeIndividualDataFile env1 "a"
             (Some (JObj (<["createdAt" := JStr "mine"]>
                          (<["title" := JStr "t"]> ∅))))
             world0).2) "a"
  = Some (JObj (<["createdAt" := JStr "1970-01-01T00:00:01.000Z"]>
                (<["title" := JStr "t"]> ∅))).
Proof.
  pose proof (written_file_carries_the_servers_stamp env1 "a"
                (Some (JObj (<["createdAt" := JStr "mine"]>
                             (<["title" := JStr "t"]> ∅))))
                world0 eq_refl) as (m & Hm & _).
  split; [reflexivity |]. rewrite Hm.
  vm_compute in Hm. injection Hm as <-. vm_compute. reflexivity.
Defined.

(** ** More on partial update *)

(** The value PATCH stores is always an object built from the spreads. A
    body without properties of its own ([null], a boolean, a number, the
    empty string, array or object) leaves a stored object as it is; a
    stored array does not stay an array: with the body [{}] it becomes the
    object of its indexed elements. *)
Theorem patch_stores_an_object
    (cfg : config) (e : env) (id : string) (auth : option string)
    (old updates : json) (w : world) :
  authorized cfg auth = true →
  dataStore w !! id = Some old →
  truthy old = true →
  let stored :=
    dataStore (serve cfg e (PATCH_json_id id auth (Stringified updates)) w).2
      !! id in
  stored = Some (JObj (own_props updates ∪ own_props old)) ∧
  (own_props updates = ∅ → ∀ m, old = JObj m → stored = Some old) ∧
  (updates = JObj ∅ → ∀ l, old = JArr l → stored = Some (JObj (indexed l))).
Proof.
  intros Hauth Hold Htr stored.
  assert (Hstored : stored = Some (JObj (own_props updates ∪ own_props old))).
  { assert (Hin : truthy_prop (dataStore w !! id) = true) by by rewrite Hold.
    subst stored. rewrite patch_run by done. rewrite Hold.
    destruct (write_fails e); simpl; by rewrite store_lookup_insert_eq. }
  split; [done |]. split.
  - intros Hnone m ->. rewrite Hstored, Hnone. simpl.
    by rewrite (left_id_L ∅ (∪)).
  - intros -> l ->. rewrite Hstored. simpl. by rewrite (left_id_L ∅ (∪)).
Qed.

Lemma patch_stores_an_object_witness :
  let w := World (<["a" := JArr [JNum 7; JNum 8]]> ∅) ∅ [] in
  authorized cfg0 key0 = true ∧
  truthy (JArr [JNum 7; JNum 8]) = true ∧
  dataStore (serve cfg0 env0 (PATCH_json_id "a" key0 (Stringified (JObj ∅))) w).2
    !! "a"%string
  = Some (JObj (<["0" := JNum 7]> (<["1" := JNum 8]> ∅))).
Proof.
  pose proof (patch_stores_an_object cfg0 env0 "a" key0 (JArr [JNum 7; JNum 8])
                (JObj ∅) (World (<["a" := JArr [JNum 7; JNum 8]]> ∅) ∅ [])
                eq_refl eq_refl eq_refl) as (_ & _ & Harr).
  split; [reflexivity |]. split; [reflexivity |].
  rewrite (Harr eq_refl _ eq_refl). vm_compute. reflexivity.
Defined.

(** PATCH is idempotent: sending the same body a second time, at any time
    and whether or not the writes to disk succeed, leaves the entry of
    the item as the first PATCH left it. *)
Theorem patch_twice_is_patch_once
    (cfg : config) (e e' : env) (id : string) (auth : option string)
    (updates : json) (w : world) :
  authorized cfg auth = true →
  truthy_prop (dataStore w !! id) = true →
  let once := (serve cfg e (PATCH_json_id id auth (Stringified updates)) w).2 in
  let twice :=
    (serve cfg e' (PATCH_json_id id auth (Stringified updates)) once).2 in
  dataStore twice = dataStore once.
Proof.
  intros Hauth Hin once twice.
  assert (Honce : dataStore once
            = <[id := spread2 (dataStore w !! id) (Some updates)]> (dataStore w)).
  { subst once. rewrite patch_run by done. by destruct (write_fails e). }
  assert (Hin1 : truthy_prop (dataStore once !! id) = true)
    by by rewrite Honce, store_lookup_insert_eq.
  assert (Htwice : dataStore twice
            = <[id := spread2 (dataStore once !! id) (Some updates)]>
                (dataStore once)).
  { subst twice. rewrite patch_run by done. by destruct (write_fails e'). }
  rewrite Htwice, Honce, store_lookup_insert_eq.
  apply store_eq; [| done]. rewrite !own_insert, insert_insert_eq.
  f_equal. unfold spread2. simpl. f_equal.
  by rewrite (assoc_L (∪)), (idemp_L (∪)).
Qed.

Lemma patch_twice_witness :
  authorized cfg0 key0 = true ∧
  truthy_prop (dataStore stored_a !! "a"%string) = true ∧
  let once :=
    (serve cfg0 env0 (PATCH_json_id "a" key0 (Stringified update_x)) stored_a).2 in
  let twice :=
    (serve cfg0 env1 (PATCH_json_id "a" key0 (Stringified update_x)) once).2 in
  dataStore once !! "a"%string = Some item_tx ∧
  dataStore twice = dataStore once.
Proof.
  split; [reflexivity |]. split; [reflexivity |]. cbv zeta.
  split; [reflexivity |].
  apply (patch_twice_is_patch_once cfg0 env0 env1 "a" key0 update_x stored_a
           eq_refl eq_refl).
Defined.

(** ** Replacing an item by a falsy value *)

(** An authorised PUT with a falsy body ([null], [false], [0], the empty
    string) on a stored item is accepted and stores that value; from then
    on the item cannot be changed or deleted through the interface: every
    later PUT, PATCH and DELETE of the identifier answers 404 and changes
    nothing. *)
Theorem put_of_a_falsy_body_locks_the_item
    (cfg : config) (e e' : env) (id : string) (auth : option string)
    (body body' : json) (w : world) :
  authorized cfg auth = true →
  truthy_prop (dataStore w !! id) = true →
  truthy body = false →
  let w1 := (serve cfg e (PUT_json_id id auth (Stringified body)) w).2 in
  dataStore w1 !! id = Some body ∧
  (write_fails e = false →
   (serve cfg e (PUT_json_id id auth (Stringified body)) w).1
     = c_json (Some body) 200) ∧
  serve cfg e' (PUT_json_id id auth (Stringified body')) w1 = (not_found, w1) ∧
  serve cfg e' (PATCH_json_id id auth (Stringified body')) w1 = (not_found, w1) ∧
  serve cfg e' (DELETE_json_id id auth) w1 = (not_found, w1).
Proof.
  intros Hauth Hin Hfalsy w1.
  pose proof (put_run cfg e id auth body w Hauth Hin) as Hrun.
  assert (Hstored : dataStore w1 !! id = Some body).
  { subst w1. rewrite Hrun.
    destruct (write_fails e); simpl; by rewrite store_lookup_insert_eq. }
  split; [done |]. split.
  - intros Hw. by rewrite Hrun, Hw.
  - apply (mutation_of_falsy_read cfg e' id auth body' w1 Hauth).
    by apply (get_falsy_own _ _ body).
Qed.

Lemma put_of_a_falsy_body_witness :
  authorized cfg0 key0 = true ∧
  truthy_prop (dataStore stored_a !! "a"%string) = true ∧
  truthy JNull = false ∧
  let replaced := serve cfg0 env0 (PUT_json_id "a" key0 (Stringified JNull)) stored_a in
  status replaced.1 = 200 ∧
  (serve cfg0 env1 (DELETE_json_id "a" key0) replaced.2).1 = not_found.
Proof.
  pose proof (put_of_a_falsy_body_locks_the_item cfg0 env0 env1 "a" key0 JNull
                item_t stored_a eq_refl eq_refl eq_refl)
    as (_ & Hresp & _ & _ & Hdel).
  split; [reflexivity |]. split; [reflexivity |]. split; [reflexivity |].
  cbv zeta. split.
  - by rewrite (Hresp eq_refl).
  - by rewrite Hdel.
Defined.

(** ** More on the retention sweep *)

Lemma sweep_removes_old_file_witness :
  disk three_files !! item_file "a"
    = Some (File (Stringified item_t) true (Some 0)) ∧
  retentionMs cfg0 < now env_day8 - 0 ∧
  remove_fails env_day8 (item_file "a") = false ∧
  disk (sweep cfg0 env_day8 three_files) !! item_file "a" = None ∧
  dataStore (sweep cfg0 env_day8 three_files) !! "a"%string = None.
Proof.
  assert (Hage : retentionMs cfg0 < now env_day8 - 0) by (vm_compute; reflexivity).
  pose proof (sweep_removes_old_file cfg0 env_day8 "a"
                (File (Stringified item_t) true (Some 0)) 0 three_files
                eq_refl eq_refl Hage eq_refl) as [Hdisk Hmem].
  split; [reflexivity |]. split; [exact Hage |]. split; [reflexivity |].
  split; [exact Hdisk | exact (Hmem eq_refl)].
Defined.

Lemma sweep_keeps_young_file_witness :
  disk three_files !! item_file "c"
    = Some (File (Stringified item_tc) true (Some (7 * 86400000))) ∧
  now env_day8 - 7 * 86400000 ≤ retentionMs cfg0 ∧
  disk (sweep cfg0 env_day8 three_files) !! item_file "c"
    = Some (File (Stringified item_tc) true (Some (7 * 86400000))) ∧
  dataStore (sweep cfg0 env_day8 three_files) !! "c"%string = Some item_tc.
Proof.
  assert (Hage : now env_day8 - 7 * 86400000 ≤ retentionMs cfg0)
    by (vm_compute; discriminate).
  pose proof (sweep_keeps_young_file cfg0 env_day8 "c"
                (File (Stringified item_tc) true (Some (7 * 86400000)))
                (7 * 86400000) three_files eq_refl eq_refl Hage)
    as [Hdisk Hmem].
  split; [reflexivity |]. split; [exact Hage |]. split; [exact Hdisk |].
  rewrite Hmem. reflexivity.
Defined.

(** A removal that fails costs the sweep only that file: the file and the
    entry of its identifier stay as they were, and any other item file
    that is over age and whose removal succeeds is still removed. *)
Theorem sweep_failure_is_isolated
    (cfg : config) (e : env) (id id' : string) (f' : file) (m' : Z)
    (w : world) :
  remove_fails e (item_file id) = true →
  disk w !! item_file id' = Some f' →
  mtime f' = Some m' →
  retentionMs cfg < now e - m' →
  remove_fails e (item_file id') = false →
  disk (sweep cfg e w) !! item_file id = disk w !! item_file id ∧
  dataStore (sweep cfg e w) !! id = dataStore w !! id ∧
  disk (sweep cfg e w) !! item_file id' = None.
Proof.
  intros Hfail Hf' Hm' Hage Hok. destruct (sweep_spec cfg e w) as [Hdisk Hmem].
  assert (Hkept : swept cfg e (disk w) (item_file id) = false).
  { unfold swept. rewrite Hfail. simpl. by rewrite andb_false_r. }
  assert (Hgone : swept cfg e (disk w) (item_file id') = true).
  { unfold swept, expired. rewrite endsWith_item_file, Hf', Hm', Hok. simpl.
    rewrite andb_true_r. by apply Z.ltb_lt. }
  split; [by rewrite Hdisk, Hkept |].
  split; [by rewrite Hmem, Hkept |].
  by rewrite Hdisk, Hgone.
Qed.

Lemma sweep_failure_witness :
  remove_fails env_day8_a_fails (item_file "a") = true ∧
  remove_fails env_day8_a_fails (item_file "b") = false ∧
  is_Some (disk (sweep cfg0 env_day8_a_fails three_files) !! item_file "a") ∧
  dataStore (sweep cfg0 env_day8_a_fails three_files) !! "a"%string
    = Some item_t ∧
  disk (sweep cfg0 env_day8_a_fails three_files) !! item_file "b" = None.
Proof.
  assert (Hage : retentionMs cfg0 < now env_day8_a_fails - 0)
    by (vm_compute; reflexivity).
  pose proof (sweep_failure_is_isolated cfg0 env_day8_a_fails "a" "b"
                (File (Stringified item_u) true (Some 0)) 0 three_files
                eq_refl eq_refl eq_refl Hage eq_refl)
    as (Hdisk & Hmem & Hgone).
  split; [reflexivity |]. split; [reflexivity |].
  split; [rewrite Hdisk; by eexists |].
  split; [rewrite Hmem; reflexivity | exact Hgone].
Defined.

(** A sweep leaves the prototype of [dataStore] alone. *)
Lemma sweep_file_keeps_prototype
    (cfg : config) (e : env) (t : Z) (name : string) (w : world) :
  proto (dataStore (sweep_file cfg e t name w).2) = proto (dataStore w).
Proof.
  unfold sweep_file, stat, try, remove, set_disk, set_dataStore, log,
    get_world, ret, throw, bind.
  repeat (case_match; simplify_eq; simpl; try done).
Qed.

Lemma sweep_files_keep_prototype
    (cfg : config) (e : env) (t : Z) (names : list string) (w : world) :
  proto (dataStore (for_each names (sweep_file cfg e t) w).2)
  = proto (dataStore w).
Proof.
  revert w. induction names as [| name names IH]; intros w; [done |].
  simpl. unfold bind at 1.
  pose proof (sweep_file_keeps_prototype cfg e t name w) as Hstep.
  destruct (sweep_file cfg e t name w) as [[err | []] w1]; simpl in *.
  - done.
  - by rewrite IH.
Qed.

Lemma sweep_keeps_prototype (cfg : config) (e : env) (w : world) :
  proto (dataStore (sweep cfg e w)) = proto (dataStore w).
Proof.
  unfold sweep, cleanupOldFiles, try, readDir, log, get_world, ret, bind.
  simpl.
  match goal with
  | |- context [for_each ?ns ?f ?w0] =>
      pose proof (sweep_files_keep_prototype cfg e (now e) ns w0) as Hloop;
      destruct (for_each ns f w0) as [[err | []] w1]
  end; simpl in *; done.
Qed.

(** A sweep only removes: both stores shrink. It never touches an entry
    of the directory whose name does not end in [.json] or that has no
    modification time, and never an entry of [dataStore] whose item file
    is not in the directory, however old that entry is. *)
Theorem sweep_only_removes (cfg : config) (e : env) (w : world) :
  disk (sweep cfg e w) ⊆ disk w ∧
  dataStore (sweep cfg e w) ⊆ dataStore w ∧
  (∀ name, endsWith name ".json" = false →
           disk (sweep cfg e w) !! name = disk w !! name) ∧
  (∀ name f, disk w !! name = Some f → mtime f = None →
             disk (sweep cfg e w) !! name = Some f) ∧
  (∀ id, disk w !! item_file id = None →
         dataStore (sweep cfg e w) !! id = dataStore w !! id).
Proof.
  destruct (sweep_spec cfg e w) as [Hdisk Hmem].
  split; [| split; [| split; [| split]]].
  - apply map_subseteq_spec. intros n f. rewrite Hdisk.
    by destruct (swept cfg e (disk w) n).
  - split; [| apply sweep_keeps_prototype].
    apply map_subseteq_spec. intros id v. rewrite <- !store_lookup_own, Hmem.
    by destruct (swept cfg e (disk w) (item_file id)
                 && truthy_prop (dataStore w !! id)).
  - intros name Hends. rewrite Hdisk. unfold swept. by rewrite Hends.
  - intros name f Hf Hm. rewrite Hdisk. unfold swept, expired.
    rewrite Hf, Hm. simpl. by rewrite andb_false_r.
  - intros id Hnone. rewrite Hmem. unfold swept, expired. rewrite Hnone.
    simpl. by rewrite andb_false_r.
Qed.

(** A second sweep under the same clock and the same failures finds
    nothing left to do: it leaves both stores as the first sweep left
    them. *)
Theorem sweep_twice_is_sweep_once (cfg : config) (e : env) (w : world) :
  disk (sweep cfg e (sweep cfg e w)) = disk (sweep cfg e w) ∧
  dataStore (sweep cfg e (sweep cfg e w)) = dataStore (sweep cfg e w).
Proof.
  destruct (sweep_spec cfg e w) as [Hdisk Hmem].
  destruct (sweep_spec cfg e (sweep cfg e w)) as [Hdisk2 Hmem2].
  assert (Hdone : ∀ n, swept cfg e (disk (sweep cfg e w)) n = false).
  { intros n. unfold swept. rewrite Hdisk.
    destruct (swept cfg e (disk w) n) eqn:Hsw.
    - simpl. by rewrite andb_false_r.
    - exact Hsw. }
  split.
  - apply map_eq. intros n. by rewrite Hdisk2, Hdone.
  - apply store_eq; [| apply sweep_keeps_prototype].
    apply map_eq. intros id. by rewrite <- !store_lookup_own, Hmem2, Hdone.
Qed.

(** A retention of [0] days in [config.yml] does not mean that nothing is
    kept: the sweep runs exactly as it does without a [retention]
    section, with a period of seven days. *)
Theorem zero_retention_is_the_default (cfg : config) (e : env) (w : world) :
  retention cfg = Some 0 →
  retentionMs cfg = 7 * msPerDay ∧
  sweep cfg e w = sweep (Config (AUTH_HEADER cfg) None) e w.
Proof.
  intros Hzero.
  assert (Hdays : retentionDays cfg = retentionDays (Config (AUTH_HEADER cfg) None)).
  { unfold retentionDays. by rewrite Hzero. }
  split.
  - unfold retentionMs, retentionDays. by rewrite Hzero.
  - unfold sweep, cleanupOldFiles, sweep_file, retentionMs. by rewrite Hdays.
Qed.

Lemma zero_retention_witness :
  retention (Config "secret" (Some 0)) = Some 0 ∧
  disk (sweep (Config "secret" (Some 0)) env_day8 three_files) !! item_file "c"
    = Some (File (Stringified item_tc) true (Some (7 * 86400000))).
Proof.
  pose proof (zero_retention_is_the_default (Config "secret" (Some 0)) env_day8
                three_files eq_refl) as [_ Hsame].
  split; [reflexivity |]. rewrite Hsame. vm_compute. reflexivity.
Defined.

(** ** More on the timer *)

(** On a host whose zone has a fixed offset [tzo], without changes of
    the clocks, the delay that [scheduleCleanup] computes is the time to
    the next midnight in Jakarta plus the distance of the host's zone from
    UTC+7: it lies within a day above that distance, and on every such
    host at or west of UTC+7 it is positive, so the sweep is not run at
    once. Across a change of the clocks the equation fails: on a host in
    America/New_York at 2026-11-01T05:30:00Z, half an hour before the end
    of daylight time, [getTimezoneOffset()] is 240 and the delay is 23.5
    hours, an hour more than the equation gives for 240. *)
Theorem scheduleCleanup_bounds (tzo now : Z) :
  scheduleCleanup tzo now
    = next_jakarta_midnight now - now + (tzo + 420) * 60000 ∧
  (tzo + 420) * 60000 < scheduleCleanup tzo now
    ≤ msPerDay + (tzo + 420) * 60000 ∧
  (-420 ≤ tzo → 0 < scheduleCleanup tzo now) ∧
  (let start := 1793511000000 in
   getTimezoneOffset America_New_York_2026 start = 240 ∧
   scheduleCleanup America_New_York_2026 start = 84600000 ∧
   next_jakarta_midnight start - start + (240 + 420) * 60000 = 81000000).
Proof.
  pose proof (next_jakarta_midnight_spec now) as [_ Hnext].
  assert (Hd : scheduleCleanup tzo now
               = next_jakarta_midnight now - now + (tzo + 420) * 60000).
  { unfold scheduleCleanup. rewrite nextRun_eq. lia. }
  split; [exact Hd |]. rewrite Hd. split; [lia |].
  split; [intros Htzo; lia |]. by vm_compute.
Qed.

(** On every host east of UTC+7 there are starts at which the delay is
    not positive, so that the timer fires at once: one millisecond before
    midnight in Jakarta is one. *)
Theorem east_of_jakarta_the_timer_can_fire_at_once (tzo : Z) :
  tzo < -420 →
  let now := - (7 * 3600000) - 1 in
  scheduleCleanup tzo now < 0 ∧ fires_at tzo now = now.
Proof.
  intros Htzo now.
  assert (Hd : scheduleCleanup tzo now = 1 + (tzo + 420) * 60000).
  { unfold scheduleCleanup. rewrite nextRun_eq. subst now.
    unfold next_jakarta_midnight, msPerDay.
    replace (- (7 * 3600000) - 1 + 7 * 3600000) with (-1) by lia.
    replace (-1 / 86400000) with (-1) by reflexivity. lia. }
  split; [lia |]. unfold fires_at. rewrite Hd. lia.
Qed.

Lemma east_of_jakarta_witness :
  -480 < -420 ∧
  scheduleCleanup (-480) (- (7 * 3600000) - 1) < 0 ∧
  fires_at (-480) (- (7 * 3600000) - 1) = - (7 * 3600000) - 1.
Proof.
  assert (Htzo : -480 < -420) by lia.
  split; [exact Htzo |].
  apply (east_of_jakarta_the_timer_can_fire_at_once (-480) Htzo).
Defined.
